(** * Result cache of Stock-Data-Visualization: [src/cache/cache_manager.py]

    A shallow embedding of the two-tier (memory + pickle file) result cache:
    key derivation ([get_cache_key]), the caching decorator ([cache_result],
    whose inner function is [wrapper]), and the two administration
    functions ([clear_cache], [clear_expired_cache]).

    Conventions.
    - A Python [str] is a Rocq [string] holding its UTF-8 bytes; the order
      used by [sorted] on [str] (code points) is the byte-wise
      lexicographic order of the encodings.
    - [time.time()] and [os.path.getmtime] return seconds as exact
      rationals ([Q]); the rounding of floating point is not modelled.
    - The module-level dictionary [_memory_cache] and the directory
      [CACHE_DIR] are the two fields of an explicit [state].
    - What the environment decides (the clock, whether a file can be
      read, written or removed, what the wrapped function does) is an
      explicit input of the function that asks for it.
    - [CACHE_DIR.glob] and [os.path.getmtime] answer without raising.
      [wrapper] is the call in a cache directory that can be searched,
      where [cache_file.exists()] answers; [cached_call] adds the call in
      which it raises.
    - A file of [CACHE_DIR] holds an entry as [wrapper] dumps it, or
      bytes from which [pickle.load] and the lines after it get no fresh
      entry but an exception. *)

From Stdlib Require Import ZArith QArith Lqa.
From stdpp Require Import gmap strings list fin_maps sorting pretty.

Import Ascii.AsciiSyntax.
Delimit Scope char_scope with char.

Set Warnings "-register-all".

(** ** MD5 ([hashlib.md5], RFC 1321) *)

Module MD5.
Local Open Scope Z_scope.

Definition mask32 (x : Z) : Z := Z.land x 4294967295.

Definition add32 (x y : Z) : Z := mask32 (x + y).

Definition not32 (x : Z) : Z := Z.lxor x 4294967295.

Definition rotl32 (x n : Z) : Z :=
  mask32 (Z.lor (Z.shiftl x n) (Z.shiftr x (32 - n))).

(** Per-round shift amounts. *)
Definition shifts : list Z :=
  [7; 12; 17; 22; 7; 12; 17; 22; 7; 12; 17; 22; 7; 12; 17; 22;
   5;  9; 14; 20; 5;  9; 14; 20; 5;  9; 14; 20; 5;  9; 14; 20;
   4; 11; 16; 23; 4; 11; 16; 23; 4; 11; 16; 23; 4; 11; 16; 23;
   6; 10; 15; 21; 6; 10; 15; 21; 6; 10; 15; 21; 6; 10; 15; 21].

(** [floor (2^32 * abs (sin (i + 1)))] for [i] from 0 to 63. *)
Definition sines : list Z :=
  [3614090360; 3905402710; 606105819; 3250441966;
   4118548399; 1200080426; 2821735955; 4249261313;
   1770035416; 2336552879; 4294925233; 2304563134;
   1804603682; 4254626195; 2792965006; 1236535329;
   4129170786; 3225465664; 643717713; 3921069994;
   3593408605; 38016083; 3634488961; 3889429448;
   568446438; 3275163606; 4107603335; 1163531501;
   2850285829; 4243563512; 1735328473; 2368359562;
   4294588738; 2272392833; 1839030562; 4259657740;
   2763975236; 1272893353; 4139469664; 3200236656;
   681279174; 3936430074; 3572445317; 76029189;
   3654602809; 3873151461; 530742520; 3299628645;
   4096336452; 1126891415; 2878612391; 4237533241;
   1700485571; 2399980690; 4293915773; 2240044497;
   1873313359; 4264355552; 2734768916; 1309151649;
   4149444226; 3174756917; 718787259; 3951481745].

Definition nthZ (l : list Z) (i : Z) : Z := nth (Z.to_nat i) l 0.

(** The message as bytes, each a [Z] below 256. *)
Definition bytes_of_string (s : string) : list Z :=
  map (fun c => Z.of_N (Ascii.N_of_ascii c)) (String.list_ascii_of_string s).

Fixpoint le_bytes (n : nat) (x : Z) : list Z :=
  match n with
  | O => []
  | S n' => Z.land x 255 :: le_bytes n' (Z.shiftr x 8)
  end.

(** Padding: one [0x80] byte, zero bytes up to 56 modulo 64, then the
    bit length as 8 little-endian bytes. *)
Definition pad (msg : list Z) : list Z :=
  let len := Z.of_nat (length msg) in
  let zeros := Z.to_nat ((55 - len) mod 64) in
  msg ++ [128] ++ repeat 0 zeros ++ le_bytes 8 ((8 * len) mod 2 ^ 64).

Fixpoint words_of_bytes (fuel : nat) (bs : list Z) : list Z :=
  match fuel, bs with
  | S fuel', b0 :: b1 :: b2 :: b3 :: rest =>
      (b0 + Z.shiftl b1 8 + Z.shiftl b2 16 + Z.shiftl b3 24)
        :: words_of_bytes fuel' rest
  | _, _ => []
  end.

Record regs := Regs { rA : Z; rB : Z; rC : Z; rD : Z }.

Definition init : regs :=
  Regs 1732584193 4023233417 2562383102 271733878.

(** One of the 64 operations on a 16-word block [M]. *)
Definition step (M : list Z) (r : regs) (i : Z) : regs :=
  let '(Regs A B C D) := r in
  let '(F, g) :=
    if i <? 16 then (Z.lor (Z.land B C) (Z.land (not32 B) D), i)
    else if i <? 32 then
      (Z.lor (Z.land D B) (Z.land (not32 D) C), (5 * i + 1) mod 16)
    else if i <? 48 then (Z.lxor (Z.lxor B C) D, (3 * i + 5) mod 16)
    else (Z.lxor C (Z.lor B (not32 D)), (7 * i) mod 16) in
  let F' := add32 (add32 (add32 F A) (nthZ sines i)) (nthZ M g) in
  Regs D (add32 B (rotl32 F' (nthZ shifts i))) B C.

Definition rounds : list Z := map Z.of_nat (seq 0 64).

Definition block (r : regs) (M : list Z) : regs :=
  let r' := fold_left (step M) rounds r in
  Regs (add32 (rA r) (rA r')) (add32 (rB r) (rB r'))
       (add32 (rC r) (rC r')) (add32 (rD r) (rD r')).

Fixpoint blocks (fuel : nat) (r : regs) (ws : list Z) : regs :=
  match fuel, ws with
  | S fuel', _ :: _ => blocks fuel' (block r (firstn 16 ws)) (skipn 16 ws)
  | _, _ => r
  end.

Definition digest (s : string) : list Z :=
  let bs := pad (bytes_of_string s) in
  let ws := words_of_bytes (length bs) bs in
  let r := blocks (length ws) init ws in
  le_bytes 4 (rA r) ++ le_bytes 4 (rB r)
    ++ le_bytes 4 (rC r) ++ le_bytes 4 (rD r).

Definition hex_digit (d : Z) : Ascii.ascii :=
  if d <? 10 then Ascii.ascii_of_N (Z.to_N (48 + d))
  else Ascii.ascii_of_N (Z.to_N (87 + d)).

Fixpoint hex_of_bytes (bs : list Z) : string :=
  match bs with
  | [] => EmptyString
  | b :: bs' =>
      String (hex_digit (Z.shiftr b 4))
        (String (hex_digit (Z.land b 15)) (hex_of_bytes bs'))
  end.

(** [hashlib.md5(s.encode()).hexdigest()] *)
Definition hexdigest (s : string) : string := hex_of_bytes (digest s).
End MD5.

(** ** Python values *)

(** Arguments of a cached call: the wrapped functions of
    [src/api/stock_api.py] take strings; the other scalars are kept for
    the rendering done by [str]. *)
Inductive pyval :=
  | PStr (s : string)
  | PInt (z : Z)
  | PBool (b : bool)
  | PNone.

(** [str(arg)], which is also what an f-string field [{arg}] renders. *)
Definition py_str (v : pyval) : string :=
  match v with
  | PStr s => s
  | PInt z => pretty z
  | PBool true => "True"
  | PBool false => "False"
  | PNone => "None"
  end.

(** [**kwargs]: a [dict], that is its items in insertion order, no name
    occurring twice. *)
Definition kwargs := list (string * pyval).

Definition kw_keys (kw : kwargs) : list string := map fst kw.

(** [kwargs[k]] *)
Fixpoint kw_get (kw : kwargs) (k : string) : option pyval :=
  match kw with
  | [] => None
  | (k', v) :: kw' => if String.eqb k k' then Some v else kw_get kw' k
  end.

(** ** Key derivation: [get_cache_key] *)

(** The order of [sorted] on [str]. *)
Definition str_le (a b : string) : Prop := String.leb a b.

#[global] Instance str_le_dec : RelDecision str_le :=
  fun a b => Is_true_dec (String.leb a b).

(** [sorted(kwargs.keys())] *)
Definition sorted_keys (kw : kwargs) : list string :=
  merge_sort str_le (kw_keys kw).

(** [sep.join(parts)] *)
Fixpoint join (sep : string) (parts : list string) : string :=
  match parts with
  | [] => EmptyString
  | [p] => p
  | p :: rest => p +:+ sep +:+ join sep rest
  end.

(** [f"{k}={kwargs[k]}"]; the [None] branch is the [KeyError] that a key
    taken from [kwargs.keys()] never raises (see [kw_get_keys]). *)
Definition kw_part (kw : kwargs) (k : string) : string :=
  match kw_get kw k with
  | Some v => k +:+ "=" +:+ py_str v
  | None => k +:+ "="
  end.

Definition key_parts (func_name : string) (args : list pyval) (kw : kwargs)
  : list string :=
  [func_name] ++ map py_str args ++ map (kw_part kw) (sorted_keys kw).

Definition key_str (func_name : string) (args : list pyval) (kw : kwargs)
  : string :=
  join "_" (key_parts func_name args kw).

Definition get_cache_key (func_name : string) (args : list pyval)
  (kw : kwargs) : string :=
  MD5.hexdigest (key_str func_name args kw).

(** The parts of the key that come from the arguments: all of
    [key_parts] but the name. *)
Definition arg_parts (args : list pyval) (kw : kwargs) : list string :=
  map py_str args ++ map (kw_part kw) (sorted_keys kw).

(** ** Results of the wrapped functions *)

(** A cell, an index label or a mapping key. *)
Inductive scalar :=
  | SNone
  | SBool (b : bool)
  | SInt (z : Z)
  | SFloat (q : Q)
  | SStr (s : string).

Inductive dtype := Int64 | Float64 | Object.

Record column := Column {
  col_name : string;
  col_dtype : dtype;
  col_cells : list scalar
}.

(** A [pd.DataFrame]: the row index and the columns in their order. *)
Record DataFrame := Frame {
  frame_index : list scalar;
  frame_columns : list column
}.

(** What a wrapped function returns: a scalar, a [dict] (items in
    insertion order) or a [pd.DataFrame]. *)
Inductive value :=
  | VScalar (s : scalar)
  | VDict (items : list (scalar * value))
  | VFrame (df : DataFrame).

(** [df.to_dict()], orientation [dict]: column name to (index label to
    cell).  The dtypes are not part of the mapping. *)
Definition column_to_dict (index : list scalar) (c : column) : scalar * value :=
  (SStr (col_name c),
   VDict (map (fun ic => (fst ic, VScalar (snd ic)))
              (combine index (col_cells c)))).

Definition to_dict (df : DataFrame) : value :=
  VDict (map (column_to_dict (frame_index df)) (frame_columns df)).

(** A wrapped function returns or raises. *)
Inductive outcome :=
  | Returns (r : value)
  | Raises (exn : string).

(** ** The two tiers *)

(** A cache entry, the [dict] with the items ['result'], ['timestamp']
    and, in the file written for a DataFrame, ['type']. *)
Record entry := Entry {
  result : value;
  timestamp : Q;
  type_tag : option string
}.

(** What [pickle.load] finds in a file: bytes it cannot decode into an
    entry (it raises), or an entry as [wrapper] dumps it. *)
Inductive content :=
  | Garbage
  | Pickle (e : entry).

Record file := File {
  file_content : content;
  mtime : Q
}.

(** [_memory_cache], by cache key, and the files of [CACHE_DIR], by file
    name. *)
Record state := State {
  memory : gmap string entry;
  disk : gmap string file
}.

(** [CACHE_DIR / f"{cache_key}.pkl"] *)
Definition pkl_name (cache_key : string) : string := cache_key +:+ ".pkl".

(** Does a file name match the pattern of [CACHE_DIR.glob("*.pkl")]? *)
Fixpoint is_pkl (name : string) : bool :=
  match name with
  | EmptyString => false
  | String _ rest => String.eqb name ".pkl" || is_pkl rest
  end.

(** ** Expiration *)

(** [now - created_at < expires], the test of lines 77 and 89. *)
Definition is_fresh (now created_at : Q) (expires : Z) : bool :=
  negb (Qle_bool (inject_Z expires) (now - created_at)).

(** [current_time - t >= expires], the test of lines 157 and 168. *)
Definition is_expired (now t : Q) (expires : Z) : bool :=
  Qle_bool (inject_Z expires) (now - t).

(** ** The environment of one call of [wrapper] *)

(** How the [open(cache_file, 'wb')] / [pickle.dump] block ends. *)
Inductive write_result :=
  | WriteOk      (* the entry is in the file *)
  | OpenFails    (* [open] raised: the file, if any, is as before *)
  | DumpFails.   (* [open] truncated the file, then [pickle.dump] raised *)

Record env := Env {
  now_mem : Q;        (* [time.time()] of line 77 *)
  now_disk : Q;       (* [time.time()] of line 89 *)
  now_put : Q;        (* [time.time()] of line 104 *)
  now_mtime : Q;      (* modification time given to a file written *)
  readable : bool;    (* does [open(cache_file, 'rb')] succeed *)
  write : write_result
}.

(** What a call logs and does, in order. *)
Inductive event :=
  | LogCacheHit         (* debug, line 78 *)
  | LogFileCacheHit     (* debug, line 92 *)
  | LogLoadFailed       (* warning, line 95 *)
  | LogCacheMiss        (* debug, line 98 *)
  | Called              (* the call of [func], line 99 *)
  | LogWriteFailed      (* warning, line 123 *)
  | LogRemoveFailed (name : string)   (* warning, lines 141 and 171 *)
  | LogCleared                        (* info, line 143 *)
  | LogClearedExpired (n : nat).      (* info, line 173 *)

(** ** The decorator: [cache_result(expires)(func)] *)

(** Lines 74 to 79: the entry of the memory tier, when it is there and
    fresh. *)
Definition memory_hit (expires : Z) (w : env) (cache_key : string)
  (st : state) : option entry :=
  match memory st !! cache_key with
  | Some cache_entry =>
      if is_fresh (now_mem w) (timestamp cache_entry) expires
      then Some cache_entry else None
  | None => None
  end.

(** Lines 82 to 95: [inl e] is a file cache hit on [e]; [inr evs] falls
    through to the call, having logged [evs]. *)
Definition disk_hit (expires : Z) (w : env) (cache_key : string)
  (st : state) : entry + list event :=
  match disk st !! pkl_name cache_key with
  | None => inr []
  | Some f =>
      if readable w then
        match file_content f with
        | Pickle cache_entry =>
            if is_fresh (now_disk w) (timestamp cache_entry) expires
            then inl cache_entry else inr []
        | Garbage => inr [LogLoadFailed]
        end
      else inr [LogLoadFailed]
  end.

(** Lines 114 to 121: the entry dumped into the file. *)
Definition file_entry (cache_entry : entry) : entry :=
  match result cache_entry with
  | VFrame df =>
      Entry (to_dict df) (timestamp cache_entry) (Some "dataframe")
  | _ => cache_entry
  end.

(** Lines 111 to 123: the file tier after the attempt to write. *)
Definition write_file (w : env) (cache_key : string) (cache_entry : entry)
  (d : gmap string file) : gmap string file * list event :=
  match write w with
  | WriteOk =>
      (<[pkl_name cache_key := File (Pickle (file_entry cache_entry)) (now_mtime w)]> d,
       [])
  | OpenFails => (d, [LogWriteFailed])
  | DumpFails =>
      (<[pkl_name cache_key := File Garbage (now_mtime w)]> d, [LogWriteFailed])
  end.

(** One call of [wrapper]: what the call gives, the state it leaves
    and what it did. *)
Definition wrapper (expires : Z) (func_name : string)
  (func : list pyval -> kwargs -> outcome) (w : env)
  (args : list pyval) (kw : kwargs) (st : state)
  : outcome * state * list event :=
  let cache_key := get_cache_key func_name args kw in
  match memory_hit expires w cache_key st with
  | Some cache_entry => (Returns (result cache_entry), st, [LogCacheHit])
  | None =>
      match disk_hit expires w cache_key st with
      | inl cache_entry =>
          (Returns (result cache_entry),
           State (<[cache_key := cache_entry]> (memory st)) (disk st),
           [LogFileCacheHit])
      | inr evs =>
          match func args kw with
          | Raises exn => (Raises exn, st, evs ++ [LogCacheMiss; Called])
          | Returns r =>
              let cache_entry := Entry r (now_put w) None in
              let mem := <[cache_key := cache_entry]> (memory st) in
              let '(d, wevs) := write_file w cache_key cache_entry (disk st) in
              (Returns r, State mem d, evs ++ [LogCacheMiss; Called] ++ wevs)
          end
      end
  end.

(** How often a trace has the wrapped function called. *)
Definition is_call (ev : event) : bool :=
  match ev with
  | Called => true
  | _ => false
  end.

Definition calls (tr : list event) : nat :=
  length (List.filter is_call tr).

(** One call of [wrapper] with what [cache_file.exists()] (line 83,
    outside the [try]) does: with [None] it answers and the call is
    [wrapper]; with [Some exn] it raises [exn] (on Python up to 3.12,
    [Path.exists] lets through every [OSError] other than a missing file,
    as the [PermissionError] of a directory that cannot be searched),
    which happens after the look into the memory tier and before
    anything else. *)
Definition cached_call (exists_error : option string) (expires : Z)
  (func_name : string) (func : list pyval -> kwargs -> outcome) (w : env)
  (args : list pyval) (kw : kwargs) (st : state)
  : outcome * state * list event :=
  match exists_error with
  | None => wrapper expires func_name func w args kw st
  | Some exn =>
      match memory_hit expires w (get_cache_key func_name args kw) st with
      | Some cache_entry => (Returns (result cache_entry), st, [LogCacheHit])
      | None => (Raises exn, st, [])
      end
  end.

(** ** Administration: [clear_cache] and [clear_expired_cache] *)

(** [clear_cache()]; [rm_ok name] tells whether [os.remove] of that file
    succeeds.  Every [*.pkl] file is tried; one whose removal raises is
    logged and stays. *)
Definition clear_cache (rm_ok : string -> bool) (st : state)
  : state * list event :=
  let failed :=
    filter (fun nf => is_pkl nf.1 = true /\ rm_ok nf.1 = false) (disk st) in
  (State ∅
     (filter (fun nf => ~ (is_pkl nf.1 = true /\ rm_ok nf.1 = true)) (disk st)),
   map (fun nf => LogRemoveFailed nf.1) (map_to_list failed) ++ [LogCleared]).

(** [clear_expired_cache(expires)] at [current_time]: a memory entry
    goes by its own timestamp, a [*.pkl] file by its modification time
    (and only when [os.remove] succeeds).  The function returns [None];
    the number of memory keys removed is in the log line. *)
Definition clear_expired_cache (expires : Z) (current_time : Q)
  (rm_ok : string -> bool) (st : state) : state * list event :=
  let keys_to_remove :=
    filter (fun ke => is_expired current_time (timestamp ke.2) expires = true)
           (memory st) in
  let old nf :=
    is_pkl nf.1 = true /\ is_expired current_time (mtime nf.2) expires = true in
  let failed :=
    filter (fun nf => old nf /\ rm_ok nf.1 = false) (disk st) in
  (State
     (filter (fun ke => is_expired current_time (timestamp ke.2) expires = false)
             (memory st))
     (filter (fun nf => ~ (old nf /\ rm_ok nf.1 = true)) (disk st)),
   map (fun nf => LogRemoveFailed nf.1) (map_to_list failed)
     ++ [LogClearedExpired (size keys_to_remove)]).

(** ** Parts and separators *)

(** A part in which the separator ["_"] does not occur. *)
Fixpoint sep_free (s : string) : bool :=
  match s with
  | EmptyString => true
  | String c rest => negb (Ascii.eqb c "_"%char) && sep_free rest
  end.

(** What [join] puts after the first part. *)
Definition join_tail (rest : list string) : string :=
  match rest with
  | [] => EmptyString
  | _ :: _ => "_" +:+ join "_" rest
  end.

(** ** Misses *)

(** The memory tier has no entry for the key, or a stale one. *)
Definition memory_miss (expires : Z) (w : env) (cache_key : string)
  (st : state) : Prop :=
  match memory st !! cache_key with
  | None => True
  | Some e => (inject_Z expires <= now_mem w - timestamp e)%Q
  end.

(** The file tier has no file for the key, or one that cannot be read,
    or cannot be decoded, or holds a stale entry. *)
Definition disk_miss (expires : Z) (w : env) (cache_key : string)
  (st : state) : Prop :=
  match disk st !! pkl_name cache_key with
  | None => True
  | Some f =>
      readable w = false \/
      match file_content f with
      | Garbage => True
      | Pickle e => (inject_Z expires <= now_disk w - timestamp e)%Q
      end
  end.

(** ** A scenario: [fetch_stock_data("AAPL", "1y")], one hour of TTL *)

Definition D : DataFrame :=
  Frame [SStr "2024-01-02"]
        [Column "Close" Float64 [SFloat (371 # 2)];
         Column "Volume" Int64 [SInt 100]].

Definition fetch (r : value) : list pyval -> kwargs -> outcome :=
  fun _ _ => Returns r.

Definition failing_fetch : list pyval -> kwargs -> outcome :=
  fun _ _ => Raises "StockDataError".

(** A call all of whose clock readings are [t], with a working disk. *)
Definition at_time (t : Q) : env := Env t t t t true WriteOk.

Definition cold : state := State ∅ ∅.

Definition aapl : list pyval := [PStr "AAPL"; PStr "1y"].

Definition aapl_key : string := get_cache_key "fetch_stock_data" aapl [].

(** ** Shape of keys and of files *)

(** A character of a [hexdigest]: a digit or a letter from [a] to [f]. *)
Definition is_hex_char (c : Ascii.ascii) : bool :=
  let n := Ascii.N_of_ascii c in
  ((48 <=? n)%N && (n <=? 57)%N) || ((97 <=? n)%N && (n <=? 102)%N).

Fixpoint all_chars (P : Ascii.ascii -> bool) (s : string) : bool :=
  match s with
  | EmptyString => true
  | String c rest => P c && all_chars P rest
  end.

(** A file as the block of lines 111 to 121 leaves it: undecodable, or an
    entry no younger than the file and whose result is not a DataFrame
    object. *)
Definition file_ok (f : file) : Prop :=
  match file_content f with
  | Garbage => True
  | Pickle e => (timestamp e <= mtime f)%Q /\ forall df, result e <> VFrame df
  end.

Definition disk_ok (st : state) : Prop :=
  forall (name : string) (f : file), disk st !! name = Some f -> file_ok f.

(** ** Symbols: [validate_stock_symbol] of [src/api/stock_api.py] *)

(** The methods of [str] that the validation uses, on ASCII characters;
    on other characters they follow the Unicode tables, which are not
    modelled: the properties below are stated for ASCII symbols. *)
Definition is_ascii_char (c : Ascii.ascii) : bool :=
  (Ascii.N_of_ascii c <? 128)%N.

Definition is_ascii (s : string) : bool := all_chars is_ascii_char s.

(** [c.isspace()]: tab, line feed, vertical tab, form feed, carriage
    return, the four separators 28 to 31, and the space. *)
Definition isspace (c : Ascii.ascii) : bool :=
  let n := Ascii.N_of_ascii c in
  ((9 <=? n)%N && (n <=? 13)%N) || ((28 <=? n)%N && (n <=? 32)%N).

(** [c.isalnum()] *)
Definition isalnum (c : Ascii.ascii) : bool :=
  let n := Ascii.N_of_ascii c in
  ((48 <=? n)%N && (n <=? 57)%N)
  || ((65 <=? n)%N && (n <=? 90)%N)
  || ((97 <=? n)%N && (n <=? 122)%N).

Definition lower_char (c : Ascii.ascii) : Ascii.ascii :=
  let n := Ascii.N_of_ascii c in
  if ((65 <=? n)%N && (n <=? 90)%N) then Ascii.ascii_of_N (n + 32) else c.

(** [s.lower()] *)
Fixpoint lower (s : string) : string :=
  match s with
  | EmptyString => EmptyString
  | String c rest => String (lower_char c) (lower rest)
  end.

Fixpoint lstrip (s : string) : string :=
  match s with
  | EmptyString => EmptyString
  | String c rest => if isspace c then lstrip rest else s
  end.

Fixpoint rstrip (s : string) : string :=
  match s with
  | EmptyString => EmptyString
  | String c rest =>
      match rstrip rest with
      | EmptyString => if isspace c then EmptyString else String c EmptyString
      | String c' rest' => String c (String c' rest')
      end
  end.

(** [s.strip()] *)
Definition strip (s : string) : string := rstrip (lstrip s).

(** [c.isalnum() or c == '.'] *)
Definition allowed (c : Ascii.ascii) : bool :=
  isalnum c || Ascii.eqb c "."%char.

Definition reserved : list string := ["none"; "symbol"; "stock"; "ticker"].

(** [validate_stock_symbol(symbol)]: [(is_valid, error_message)]. *)
Definition validate_stock_symbol (symbol : string) : bool * string :=
  match symbol with
  | EmptyString => (false, "Stock symbol cannot be empty")
  | String _ _ =>
      let symbol := strip symbol in
      if negb (all_chars allowed symbol)
      then (false, "Stock symbol must contain only letters, numbers, and dots")
      else if 10 <? String.length symbol
      then (false, "Stock symbol too long (max 10 characters)")
      else if bool_decide (lower symbol ∈ reserved)
      then (false, "Please enter a valid stock symbol")
      else (true, EmptyString)
  end.

(** ** The summary: [get_stock_summary] of [src/api/stock_api.py] *)

(** The three functions of [src/utils/stock_data.py] that ask Yahoo
    Finance, as what they return or raise. *)
Record yahoo := Yahoo {
  get_stock_data : string -> string -> outcome;
  get_company_info : string -> outcome;
  get_financials : string -> outcome
}.

(** What [company_info.get(key, default)] gives: a value, or, of a
    DataFrame, the columns of that name with the index. *)
Inductive got :=
  | GotValue (v : value)
  | GotColumns (index : list scalar) (cols : list column).

(** [d.get(key)] on the items of a [dict], for a key that is a [str]. *)
Fixpoint dict_get (items : list (scalar * value)) (key : string)
  : option value :=
  match items with
  | [] => None
  | (SStr k, v) :: rest => if String.eqb k key then Some v else dict_get rest key
  | _ :: rest => dict_get rest key
  end.

(** [type(s).__name__] *)
Definition type_name (s : scalar) : string :=
  match s with
  | SNone => "NoneType"
  | SBool _ => "bool"
  | SInt _ => "int"
  | SFloat _ => "float"
  | SStr _ => "str"
  end.

(** [company_info.get("longName", "Unknown Company")]; [inl] is the
    message of the [AttributeError] of an object without [get]. *)
Definition get_long_name (company_info : value) : string + got :=
  match company_info with
  | VScalar s => inl ("'" +:+ type_name s +:+ "' object has no attribute 'get'")
  | VDict items =>
      inr (GotValue (default (VScalar (SStr "Unknown Company"))
                             (dict_get items "longName")))
  | VFrame df =>
      match List.filter (fun c => String.eqb (col_name c) "longName")
                        (frame_columns df) with
      | [] => inr (GotValue (VScalar (SStr "Unknown Company")))
      | cols => inr (GotColumns (frame_index df) cols)
      end
  end.

(** The summary, item by item. *)
Record summary := Summary {
  sum_stock_symbol : string;
  sum_company_name : got;
  sum_period : string;
  sum_stock_data : value;
  sum_company_info : value;
  sum_financial_data : value;
  sum_last_updated : string
}.

Inductive summary_outcome :=
  | SummaryReturns (s : summary)
  | SummaryRaises (exn : string).

(** Lines 122 to 130: the summary from the three results; [now_str] is
    [pd.Timestamp.now().strftime("%Y-%m-%d %H:%M:%S")]. *)
Definition compile_summary (stock_symbol period : string)
  (stock_data company_info financial_data : value) (now_str : string)
  : summary_outcome :=
  match get_long_name company_info with
  | inl exn => SummaryRaises exn
  | inr name =>
      SummaryReturns
        (Summary stock_symbol name period stock_data company_info
                 financial_data now_str)
  end.

(** [get_stock_summary(stock_symbol, period)]; [w1], [w2], [w3] are the
    environments of the three cached calls, in their order.  The lines
    logged by this function itself are left out of the trace. *)
Definition get_stock_summary (y : yahoo) (w1 w2 w3 : env) (now_str : string)
  (stock_symbol period : string) (st : state)
  : summary_outcome * state * list event :=
  match validate_stock_symbol stock_symbol with
  | (false, error_message) => (SummaryRaises error_message, st, [])
  | (true, _) =>
      match wrapper 3600 "fetch_stock_data"
              (fun _ _ => get_stock_data y stock_symbol period) w1
              [PStr stock_symbol; PStr period] [] st with
      | (Raises exn, st1, tr1) => (SummaryRaises exn, st1, tr1)
      | (Returns stock_data, st1, tr1) =>
          match wrapper 7200 "fetch_company_info"
                  (fun _ _ => get_company_info y stock_symbol) w2
                  [PStr stock_symbol] [] st1 with
          | (Raises exn, st2, tr2) => (SummaryRaises exn, st2, tr1 ++ tr2)
          | (Returns company_info, st2, tr2) =>
              match wrapper 86400 "fetch_financials"
                      (fun _ _ => get_financials y stock_symbol) w3
                      [PStr stock_symbol] [] st2 with
              | (Raises exn, st3, tr3) =>
                  (SummaryRaises exn, st3, tr1 ++ tr2 ++ tr3)
              | (Returns financial_data, st3, tr3) =>
                  (compile_summary stock_symbol period stock_data
                     company_info financial_data now_str,
                   st3, tr1 ++ tr2 ++ tr3)
              end
          end
      end
  end.

(** * Properties *)

(** ** The order of [sorted] *)

Lemma str_compare_lt_trans (a b c : string) :
  String.compare a b = Lt -> String.compare b c = Lt -> String.compare a c = Lt.
Proof.
  revert b c. induction a as [|x a IH]; intros [|y b] [|z c]; simpl; try done.
  unfold Ascii.compare.
  destruct (N.compare_spec (Ascii.N_of_ascii x) (Ascii.N_of_ascii y)) as [E1|L1|G1];
    destruct (N.compare_spec (Ascii.N_of_ascii y) (Ascii.N_of_ascii z)) as [E2|L2|G2];
    destruct (N.compare_spec (Ascii.N_of_ascii x) (Ascii.N_of_ascii z)) as [E3|L3|G3];
    try done; try lia.
  apply IH.
Qed.

#[global] Instance str_le_total : Total str_le.
Proof.
  intros a b. unfold str_le.
  destruct (String.leb_total a b) as [H|H]; rewrite H; [left|right]; done.
Qed.

#[global] Instance str_le_antisymm : AntiSymm (=) str_le.
Proof.
  intros a b Hab Hba. unfold str_le in *.
  apply String.leb_antisym; by apply Is_true_true.
Qed.

#[global] Instance str_le_trans : Transitive str_le.
Proof.
  intros a b c. unfold str_le, String.leb.
  destruct (String.compare a b) eqn:Hab; try done;
    destruct (String.compare b c) eqn:Hbc; try done; intros _ _.
  - apply String.compare_eq_iff in Hab as ->. by rewrite Hbc.
  - apply String.compare_eq_iff in Hab as ->. by rewrite Hbc.
  - apply String.compare_eq_iff in Hbc as <-. by rewrite Hab.
  - by rewrite (str_compare_lt_trans a b c).
Qed.

(** Sorting forgets the order in which the names were given. *)
Lemma sorted_keys_perm (kw kw' : kwargs) :
  kw ≡ₚ kw' -> sorted_keys kw = sorted_keys kw'.
Proof.
  intros Hp. unfold sorted_keys.
  apply (Sorted_unique str_le); try apply Sorted_merge_sort; try apply _.
  rewrite !merge_sort_Permutation. unfold kw_keys. by rewrite Hp.
Qed.

(** ** Lookup in [kwargs] *)

Lemma kw_get_Some (kw : kwargs) (k : string) (v : pyval) :
  NoDup (kw_keys kw) -> (k, v) ∈ kw -> kw_get kw k = Some v.
Proof.
  induction kw as [|[k' v'] kw IH]; simpl; intros Hnd Hin.
  - by apply elem_of_nil in Hin.
  - apply NoDup_cons in Hnd as [Hk' Hnd].
    apply elem_of_cons in Hin as [Heq|Hin].
    + inversion Heq; subst. by rewrite String.eqb_refl.
    + destruct (String.eqb_spec k k') as [->|Hne]; [|by apply IH].
      exfalso. apply Hk'. unfold kw_keys.
      apply list_elem_of_fmap. by exists (k', v).
Qed.

(** A name taken from [kwargs.keys()] is bound: no [KeyError]. *)
Lemma kw_get_keys (kw : kwargs) (k : string) :
  k ∈ kw_keys kw -> is_Some (kw_get kw k).
Proof.
  induction kw as [|[k' v'] kw IH]; simpl; intros Hin.
  - by apply elem_of_nil in Hin.
  - destruct (String.eqb_spec k k') as [->|Hne]; [by eexists|].
    apply elem_of_cons in Hin as [?|Hin]; [done|by apply IH].
Qed.

Lemma kw_get_perm (kw kw' : kwargs) (k : string) :
  NoDup (kw_keys kw) -> kw ≡ₚ kw' -> kw_get kw k = kw_get kw' k.
Proof.
  intros Hnd Hp.
  assert (Hnd' : NoDup (kw_keys kw')).
  { unfold kw_keys in *. by rewrite <- Hp. }
  destruct (kw_get kw k) as [v|] eqn:Hk.
  - symmetry. apply kw_get_Some; [done|]. rewrite <- Hp.
    clear Hp Hnd Hnd'. induction kw as [|[k' v'] kw IH]; simpl in *; [done|].
    destruct (String.eqb_spec k k') as [->|Hne].
    + inversion Hk; subst. apply elem_of_cons. by left.
    + apply elem_of_cons. right. by apply IH.
  - destruct (kw_get kw' k) as [v'|] eqn:Hk'; [|done].
    assert (Hin : (k, v') ∈ kw).
    { rewrite Hp. clear Hp Hnd Hnd' Hk.
      induction kw' as [|[k1 v1] kw' IH]; simpl in *; [done|].
      destruct (String.eqb_spec k k1) as [->|Hne].
      - inversion Hk'; subst. apply elem_of_cons. by left.
      - apply elem_of_cons. right. by apply IH. }
    rewrite (kw_get_Some kw k v') in Hk; done.
Qed.

(** The key is the same whatever the order of the keyword arguments. *)
Lemma key_parts_kw_perm (func_name : string) (args : list pyval)
  (kw kw' : kwargs) :
  NoDup (kw_keys kw) -> kw ≡ₚ kw' ->
  key_parts func_name args kw = key_parts func_name args kw'.
Proof.
  intros Hnd Hp. unfold key_parts.
  rewrite (sorted_keys_perm kw kw' Hp). do 2 f_equal.
  apply map_ext. intros k. unfold kw_part. by rewrite (kw_get_perm kw kw' k).
Qed.

(** ** The joined string *)

Lemma join_cons (p : string) (rest : list string) :
  join "_" (p :: rest) = p +:+ join_tail rest.
Proof.
  destruct rest as [|q rest]; simpl; [|done].
  induction p as [|c p IH]; [done|]. exact (f_equal (String c) IH).
Qed.

Lemma join_tail_shape (rest : list string) :
  join_tail rest = EmptyString \/ exists r, join_tail rest = String "_"%char r.
Proof. destruct rest; simpl; eauto. Qed.

Lemma sep_free_prefix (p q x y : string) :
  sep_free p = true -> sep_free q = true ->
  (x = EmptyString \/ exists r, x = String "_"%char r) ->
  (y = EmptyString \/ exists r, y = String "_"%char r) ->
  p +:+ x = q +:+ y -> p = q /\ x = y.
Proof.
  revert q. induction p as [|c p IH]; intros [|d q] Hp Hq Hx Hy Heq;
    simpl in *.
  - done.
  - destruct Hx as [->|[r ->]]; [done|]. inversion Heq; subst. done.
  - destruct Hy as [->|[r ->]]; [done|]. inversion Heq; subst. done.
  - inversion Heq; subst.
    apply andb_true_iff in Hp as [_ Hp]. apply andb_true_iff in Hq as [_ Hq].
    destruct (IH q Hp Hq Hx Hy) as [-> ->]; done.
Qed.

(** On parts without the separator, [join] loses nothing. *)
Lemma join_inj (p q : string) (l l' : list string) :
  Forall (fun s => sep_free s = true) (p :: l) ->
  Forall (fun s => sep_free s = true) (q :: l') ->
  join "_" (p :: l) = join "_" (q :: l') -> p :: l = q :: l'.
Proof.
  revert p q l'. induction l as [|a l IH]; intros p q l' Hl Hl' Heq.
  - rewrite !join_cons in Heq.
    apply Forall_cons in Hl as [Hp _]. apply Forall_cons in Hl' as [Hq Hl'].
    destruct (sep_free_prefix p q _ _ Hp Hq (join_tail_shape _)
                (join_tail_shape _) Heq) as [-> Ht].
    destruct l'; [done|discriminate].
  - rewrite !join_cons in Heq.
    apply Forall_cons in Hl as [Hp Hl]. apply Forall_cons in Hl' as [Hq Hl'].
    destruct (sep_free_prefix p q _ _ Hp Hq (join_tail_shape _)
                (join_tail_shape _) Heq) as [-> Ht].
    destruct l' as [|b l']; [discriminate|].
    simpl in Ht. inversion Ht as [Hj]. f_equal. by apply IH.
Qed.

Lemma append_inj_r (a x y : string) : a +:+ x = a +:+ y -> x = y.
Proof.
  induction a as [|c a IH]; [done|].
  change (String c (a +:+ x) = String c (a +:+ y) -> x = y).
  intros H. inversion H. by apply IH.
Qed.

Lemma join_tail_inj (l l' : list string) :
  Forall (fun s => sep_free s = true) l ->
  Forall (fun s => sep_free s = true) l' ->
  join_tail l = join_tail l' -> l = l'.
Proof.
  intros Hl Hl' Heq. destruct l as [|p l], l' as [|q l']; try done.
  change (String "_"%char (join "_" (p :: l))
          = String "_"%char (join "_" (q :: l'))) in Heq.
  inversion Heq. by apply join_inj.
Qed.

(** With one name, the joined string tells the parts of the arguments,
    when these hold no separator; the name may hold some. *)
Lemma key_str_inj (n : string) (a a' : list pyval) (kw kw' : kwargs) :
  Forall (fun s => sep_free s = true) (arg_parts a kw) ->
  Forall (fun s => sep_free s = true) (arg_parts a' kw') ->
  key_str n a kw = key_str n a' kw' -> arg_parts a kw = arg_parts a' kw'.
Proof.
  intros Hf Hf' Heq.
  change (join "_" (n :: arg_parts a kw) = join "_" (n :: arg_parts a' kw'))
    in Heq.
  rewrite !join_cons in Heq. apply append_inj_r in Heq.
  by apply join_tail_inj.
Qed.

(** ** Key derivation *)

Example key_str_example :
  key_str "fetch_stock_data" [PStr "AAPL"]
          [("period", PStr "1y"); ("interval", PStr "1d")]
  = "fetch_stock_data_AAPL_interval=1d_period=1y".
Proof. reflexivity. Qed.

Example get_cache_key_example :
  get_cache_key "f" [PStr "AAPL"] [] = "e4818b282824887464de35235afb11ba".
Proof. vm_compute. reflexivity. Qed.

(** C3, as stated, fails: two different argument tuples whose parts join
    to the same string have the same key, whatever the digest: one
    positional argument ["a_b"] against the two ["a"], ["b"]. *)
Lemma distinct_arguments_same_key :
  ~ (forall (n : string) (a a' : list pyval) (kw kw' : kwargs),
        (a, kw) <> (a', kw') ->
        get_cache_key n a kw <> get_cache_key n a' kw').
Proof.
  intros H.
  apply (H "f" [PStr "a_b"] [PStr "a"; PStr "b"] [] []); [discriminate|].
  reflexivity.
Qed.

(** The renderings already collide: [f(1)] and [f("1")] have the same
    parts. *)
Example rendering_collision :
  (PInt 1 : pyval) <> PStr "1"
  /\ key_parts "f" [PInt 1] [] = key_parts "f" [PStr "1"] [].
Proof. split; [discriminate|reflexivity]. Qed.

(** C3, amended: for every operation name, two calls whose argument
    parts (the rendering of each positional argument, then [name=value]
    of each keyword argument by sorted name) differ and hold no separator
    are hashed from different strings, so that their keys differ unless
    MD5 collides; in particular two different tuples of positional
    strings without the separator are hashed from different strings; and
    the keys of [f("AAPL")] and [f("MSFT")] differ. *)
Theorem get_cache_key_distinct :
  (forall (n : string) (a a' : list pyval) (kw kw' : kwargs),
      Forall (fun s => sep_free s = true) (arg_parts a kw) ->
      Forall (fun s => sep_free s = true) (arg_parts a' kw') ->
      arg_parts a kw <> arg_parts a' kw' ->
      key_str n a kw <> key_str n a' kw')
  /\ (forall (n : string) (ss ss' : list string),
        Forall (fun s => sep_free s = true) ss ->
        Forall (fun s => sep_free s = true) ss' ->
        ss <> ss' ->
        key_str n (map PStr ss) [] <> key_str n (map PStr ss') [])
  /\ get_cache_key "f" [PStr "AAPL"] [] <> get_cache_key "f" [PStr "MSFT"] [].
Proof.
  assert (Hstr : forall ss : list string, arg_parts (map PStr ss) [] = ss).
  { intros ss. unfold arg_parts. simpl. rewrite app_nil_r, map_map. simpl.
    apply map_id. }
  split; [|split].
  - intros n a a' kw kw' Hf Hf' Hne Heq. apply Hne. by eapply key_str_inj.
  - intros n ss ss' Hf Hf' Hne Heq. apply Hne.
    rewrite <- (Hstr ss), <- (Hstr ss').
    apply (key_str_inj n); by rewrite ?Hstr.
  - vm_compute. discriminate.
Qed.

Lemma get_cache_key_distinct_witness :
  key_str "fetch_stock_data" [PStr "AAPL"; PStr "1y"] [("interval", PStr "1d")]
  <> key_str "fetch_stock_data" [PStr "MSFT"; PStr "1y"] [("interval", PStr "1d")]
  /\ key_str "fetch_stock_data" [PStr "AAPL"; PStr "1y"] []
     <> key_str "fetch_stock_data" [PStr "AAPL"; PStr "5y"] [].
Proof.
  split.
  - apply (proj1 get_cache_key_distinct).
    + vm_compute. repeat constructor.
    + vm_compute. repeat constructor.
    + vm_compute. discriminate.
  - apply (proj1 (proj2 get_cache_key_distinct) "fetch_stock_data"
             ["AAPL"; "1y"] ["AAPL"; "5y"]).
    + repeat constructor.
    + repeat constructor.
    + discriminate.
Defined.

(** C4: the key does not depend on the order in which the keyword
    arguments are given, and it does depend on the order of the
    positional ones: [f("a", "b")] and [f("b", "a")] have different
    keys. *)
Theorem get_cache_key_argument_order :
  (forall (n : string) (a : list pyval) (kw kw' : kwargs),
      NoDup (kw_keys kw) -> kw ≡ₚ kw' ->
      get_cache_key n a kw = get_cache_key n a kw')
  /\ (exists (n : string) (a a' : list pyval) (kw : kwargs),
         a ≡ₚ a' /\ get_cache_key n a kw <> get_cache_key n a' kw).
Proof.
  split.
  - intros n a kw kw' Hnd Hp. unfold get_cache_key, key_str.
    by rewrite (key_parts_kw_perm n a kw kw').
  - exists "f", [PStr "a"; PStr "b"], [PStr "b"; PStr "a"], [].
    split; [apply perm_swap|]. vm_compute. discriminate.
Qed.

Lemma get_cache_key_argument_order_witness :
  get_cache_key "fetch_stock_data" [PStr "AAPL"]
    [("period", PStr "1y"); ("interval", PStr "1d")]
  = get_cache_key "fetch_stock_data" [PStr "AAPL"]
      [("interval", PStr "1d"); ("period", PStr "1y")].
Proof.
  apply (proj1 get_cache_key_argument_order).
  - apply (bool_decide_unpack _). vm_compute. exact I.
  - apply perm_swap.
Defined.

(** C10: one positional string ["k=v"] and the keyword argument [k=v]
    give the same key. *)
Theorem get_cache_key_positional_as_keyword (n k : string) (v : pyval) :
  get_cache_key n [PStr (k +:+ "=" +:+ py_str v)] []
  = get_cache_key n [] [(k, v)].
Proof.
  unfold get_cache_key, key_str, key_parts, kw_part. simpl.
  by rewrite String.eqb_refl.
Qed.

Example get_cache_key_positional_as_keyword_example :
  get_cache_key "fetch_stock_data" [PStr "period=1y"] []
  = get_cache_key "fetch_stock_data" [] [("period", PStr "1y")].
Proof. reflexivity. Qed.

(** ** Expiration *)

Lemma is_fresh_lt (now created_at : Q) (expires : Z) :
  is_fresh now created_at expires = true
  <-> (now - created_at < inject_Z expires)%Q.
Proof.
  unfold is_fresh. rewrite negb_true_iff, <- not_true_iff_false, Qle_bool_iff.
  split; [apply Qnot_le_lt|apply Qlt_not_le].
Qed.

Lemma is_fresh_false (now created_at : Q) (expires : Z) :
  is_fresh now created_at expires = false
  <-> (inject_Z expires <= now - created_at)%Q.
Proof. unfold is_fresh. by rewrite negb_false_iff, Qle_bool_iff. Qed.

Lemma is_expired_not_fresh (now t : Q) (expires : Z) :
  is_expired now t expires = negb (is_fresh now t expires).
Proof. unfold is_expired, is_fresh. by rewrite negb_involutive. Qed.

Lemma memory_miss_hit (expires : Z) (w : env) (k : string) (st : state) :
  memory_miss expires w k st <-> memory_hit expires w k st = None.
Proof.
  unfold memory_miss, memory_hit. destruct (memory st !! k) as [e|]; [|done].
  rewrite <- is_fresh_false.
  destruct (is_fresh (now_mem w) (timestamp e) expires); split; done.
Qed.

Lemma disk_miss_hit (expires : Z) (w : env) (k : string) (st : state) :
  disk_miss expires w k st <-> exists evs, disk_hit expires w k st = inr evs.
Proof.
  unfold disk_miss, disk_hit.
  destruct (disk st !! pkl_name k) as [f|]; [|by split; eauto].
  destruct (readable w); [|by split; eauto].
  destruct (file_content f) as [|e]; [by split; eauto|].
  rewrite <- is_fresh_false.
  destruct (is_fresh (now_disk w) (timestamp e) expires); split.
  - by intros [|].
  - by intros [? ?].
  - eauto.
  - eauto.
Qed.

Lemma memory_hit_fresh (expires : Z) (w : env) (k : string) (st : state)
  (e : entry) :
  memory st !! k = Some e ->
  (now_mem w - timestamp e < inject_Z expires)%Q ->
  memory_hit expires w k st = Some e.
Proof.
  intros Hk Hf. unfold memory_hit. rewrite Hk.
  apply is_fresh_lt in Hf. by rewrite Hf.
Qed.

Lemma disk_hit_fresh (expires : Z) (w : env) (k : string) (st : state)
  (e : entry) (m : Q) :
  disk st !! pkl_name k = Some (File (Pickle e) m) ->
  readable w = true ->
  (now_disk w - timestamp e < inject_Z expires)%Q ->
  disk_hit expires w k st = inl e.
Proof.
  intros Hk Hr Hf. unfold disk_hit. rewrite Hk, Hr. simpl.
  apply is_fresh_lt in Hf. by rewrite Hf.
Qed.

Lemma calls_app (tr tr' : list event) : calls (tr ++ tr') = calls tr + calls tr'.
Proof. unfold calls. by rewrite List.filter_app, length_app. Qed.

(** What [disk_hit] logs when it falls through holds no call. *)
Lemma disk_hit_no_call (expires : Z) (w : env) (k : string) (st : state)
  (evs : list event) :
  disk_hit expires w k st = inr evs -> calls evs = 0.
Proof.
  unfold disk_hit. intros H.
  repeat match type of H with
         | context [match ?x with _ => _ end] => destruct x
         end; by inversion H.
Qed.

Lemma write_file_no_call (w : env) (k : string) (e : entry)
  (d : gmap string file) : calls (write_file w k e d).2 = 0.
Proof. unfold write_file. by destruct (write w). Qed.

(** ** The call on a miss *)

(** On a miss in both tiers the wrapped function is called once, and
    what the call gives is what the function gives. *)
Lemma wrapper_miss (expires : Z) (func_name : string)
  (func : list pyval -> kwargs -> outcome) (w : env)
  (args : list pyval) (kw : kwargs) (st : state) :
  let cache_key := get_cache_key func_name args kw in
  memory_miss expires w cache_key st ->
  disk_miss expires w cache_key st ->
  exists st' tr,
    wrapper expires func_name func w args kw st = (func args kw, st', tr)
    /\ calls tr = 1
    /\ match func args kw with
       | Raises _ => st' = st
       | Returns r =>
           memory st' = <[cache_key := Entry r (now_put w) None]> (memory st)
           /\ disk st' = (write_file w cache_key (Entry r (now_put w) None) (disk st)).1
       end.
Proof.
  intros cache_key Hm Hd. unfold wrapper. fold cache_key.
  apply memory_miss_hit in Hm. apply disk_miss_hit in Hd as [evs Hd].
  rewrite Hm, Hd. pose proof (disk_hit_no_call _ _ _ _ _ Hd) as Hevs.
  destruct (func args kw) as [r|x].
  - pose proof (write_file_no_call w cache_key (Entry r (now_put w) None) (disk st)) as Hw.
    destruct (write_file w cache_key (Entry r (now_put w) None) (disk st))
      as [d wevs] eqn:Hwf.
    eexists _, _. split; [done|]. split; [|done].
    simpl in Hw. rewrite !calls_app, Hevs, Hw. done.
  - eexists _, _. split; [done|]. split; [|done].
    rewrite calls_app, Hevs. done.
Qed.

(** ** Freshness in the two tiers *)

(** C5: an entry created at [T] is fresh exactly while
    [now - T < expires]: a read before [T + expires] hits, a read at or
    after [T + expires] does not, in the memory tier and in the file
    tier. *)
Theorem fresh_iff_within_ttl (expires : Z) (w : env) (cache_key : string)
  (st : state) (e : entry) :
  let T := timestamp e in
  let S := inject_Z expires in
  (forall now : Q,
      (is_fresh now T expires = true <-> (now - T < S)%Q)
      /\ ((now < T + S)%Q -> is_fresh now T expires = true)
      /\ ((T + S <= now)%Q -> is_fresh now T expires = false))
  /\ (memory st !! cache_key = Some e ->
        ((now_mem w < T + S)%Q -> memory_hit expires w cache_key st = Some e)
        /\ ((T + S <= now_mem w)%Q -> memory_hit expires w cache_key st = None))
  /\ (forall m : Q,
        disk st !! pkl_name cache_key = Some (File (Pickle e) m) ->
        readable w = true ->
        ((now_disk w < T + S)%Q -> disk_hit expires w cache_key st = inl e)
        /\ ((T + S <= now_disk w)%Q -> disk_hit expires w cache_key st = inr [])).
Proof.
  intros T S. split; [|split].
  - intros now. split; [apply is_fresh_lt|]. split; intros H.
    + apply is_fresh_lt. fold S. lra.
    + apply is_fresh_false. fold S. lra.
  - intros Hk. split; intros H.
    + apply (memory_hit_fresh _ _ _ _ _ Hk). fold T S. lra.
    + apply memory_miss_hit. unfold memory_miss. rewrite Hk. fold T S. lra.
  - intros m Hk Hr. split; intros H.
    + apply (disk_hit_fresh _ _ _ _ _ m Hk Hr). fold T S. lra.
    + unfold disk_hit. rewrite Hk, Hr. simpl.
      assert (Hf : is_fresh (now_disk w) (timestamp e) expires = false).
      { apply is_fresh_false. fold T S. lra. }
      by rewrite Hf.
Qed.

Lemma fresh_iff_within_ttl_witness :
  let e := Entry (VFrame D) 0 None in
  let mem := State {[aapl_key := e]} ∅ in
  let dsk := State ∅ {[pkl_name aapl_key := File (Pickle e) 0]} in
  is_fresh 3599 0 3600 = true
  /\ is_fresh 3600 0 3600 = false
  /\ memory_hit 3600 (at_time 3599) aapl_key mem = Some e
  /\ memory_hit 3600 (at_time 3600) aapl_key mem = None
  /\ disk_hit 3600 (at_time 3599) aapl_key dsk = inl e
  /\ disk_hit 3600 (at_time 3600) aapl_key dsk = inr [].
Proof.
  intros e mem dsk.
  destruct (fresh_iff_within_ttl 3600 (at_time 3599) aapl_key mem e)
    as (Hf & Hm & _).
  destruct (fresh_iff_within_ttl 3600 (at_time 3600) aapl_key mem e)
    as (_ & Hm' & _).
  destruct (fresh_iff_within_ttl 3600 (at_time 3599) aapl_key dsk e)
    as (_ & _ & Hd).
  destruct (fresh_iff_within_ttl 3600 (at_time 3600) aapl_key dsk e)
    as (_ & _ & Hd').
  split; [apply (Hf 3599%Q); vm_compute; reflexivity|].
  split; [apply (Hf 3600%Q); vm_compute; discriminate|].
  split; [apply Hm; [apply lookup_singleton_eq|vm_compute; reflexivity]|].
  split; [apply Hm'; [apply lookup_singleton_eq|vm_compute; discriminate]|].
  split.
  - apply (Hd 0%Q); [apply lookup_singleton_eq|reflexivity|].
    vm_compute. reflexivity.
  - apply (Hd' 0%Q); [apply lookup_singleton_eq|reflexivity|].
    vm_compute. discriminate.
Defined.

(** ** Hits *)

Lemma wrapper_memory_hit (expires : Z) (func_name : string)
  (func : list pyval -> kwargs -> outcome) (w : env)
  (args : list pyval) (kw : kwargs) (st : state) (e : entry) :
  memory st !! get_cache_key func_name args kw = Some e ->
  (now_mem w - timestamp e < inject_Z expires)%Q ->
  wrapper expires func_name func w args kw st
  = (Returns (result e), st, [LogCacheHit]).
Proof.
  intros Hk Hf. unfold wrapper.
  by rewrite (memory_hit_fresh _ _ _ _ _ Hk Hf).
Qed.

Lemma wrapper_disk_hit (expires : Z) (func_name : string)
  (func : list pyval -> kwargs -> outcome) (w : env)
  (args : list pyval) (kw : kwargs) (st : state) (e : entry) (m : Q) :
  let cache_key := get_cache_key func_name args kw in
  memory_miss expires w cache_key st ->
  disk st !! pkl_name cache_key = Some (File (Pickle e) m) ->
  readable w = true ->
  (now_disk w - timestamp e < inject_Z expires)%Q ->
  wrapper expires func_name func w args kw st
  = (Returns (result e),
     State (<[cache_key := e]> (memory st)) (disk st),
     [LogFileCacheHit]).
Proof.
  intros cache_key Hm Hk Hr Hf. unfold wrapper. fold cache_key.
  apply memory_miss_hit in Hm. rewrite Hm.
  by rewrite (disk_hit_fresh _ _ _ _ _ m Hk Hr Hf).
Qed.

(** C2: a fresh memory entry is returned without a call; otherwise a
    fresh file entry is put back into the memory tier and returned
    without a call; and of two calls, the first a miss that the wrapped
    function answers and the second within [expires] of the entry made
    by the first, only the first calls the wrapped function. *)
Theorem wrapper_hits_skip_call (expires : Z) (func_name : string)
  (func func2 : list pyval -> kwargs -> outcome) (w w2 : env)
  (args : list pyval) (kw : kwargs) (st : state) :
  let cache_key := get_cache_key func_name args kw in
  (forall e : entry,
      memory st !! cache_key = Some e ->
      (now_mem w - timestamp e < inject_Z expires)%Q ->
      exists tr,
        wrapper expires func_name func w args kw st
        = (Returns (result e), st, tr) /\ calls tr = 0)
  /\ (forall (e : entry) (m : Q),
        memory_miss expires w cache_key st ->
        disk st !! pkl_name cache_key = Some (File (Pickle e) m) ->
        readable w = true ->
        (now_disk w - timestamp e < inject_Z expires)%Q ->
        exists tr,
          wrapper expires func_name func w args kw st
          = (Returns (result e),
             State (<[cache_key := e]> (memory st)) (disk st), tr)
          /\ calls tr = 0)
  /\ (forall r : value,
        memory_miss expires w cache_key st ->
        disk_miss expires w cache_key st ->
        func args kw = Returns r ->
        (now_mem w2 - now_put w < inject_Z expires)%Q ->
        let '(o1, st1, tr1) := wrapper expires func_name func w args kw st in
        let '(o2, st2, tr2) := wrapper expires func_name func2 w2 args kw st1 in
        o1 = Returns r /\ o2 = Returns r
        /\ calls tr1 = 1 /\ calls tr2 = 0 /\ calls (tr1 ++ tr2) = 1).
Proof.
  intros cache_key. split; [|split].
  - intros e Hk Hf. eexists. split; [by apply wrapper_memory_hit|done].
  - intros e m Hm Hk Hr Hf. eexists.
    split; [by apply (wrapper_disk_hit _ _ _ _ _ _ _ _ m)|done].
  - intros r Hm Hd Hr Hf.
    destruct (wrapper_miss expires func_name func w args kw st Hm Hd)
      as (st1 & tr1 & -> & Hc & Hst). rewrite Hr in Hst |- *.
    destruct Hst as [Hmem _].
    rewrite (wrapper_memory_hit expires func_name func2 w2 args kw st1
               (Entry r (now_put w) None)).
    + rewrite calls_app, Hc. done.
    + fold cache_key. rewrite Hmem. apply lookup_insert_eq.
    + done.
Qed.

Lemma wrapper_hits_skip_call_witness :
  (exists tr,
      wrapper 3600 "fetch_stock_data" failing_fetch (at_time 10) aapl []
        (State {[aapl_key := Entry (VFrame D) 0 None]} ∅)
      = (Returns (VFrame D), State {[aapl_key := Entry (VFrame D) 0 None]} ∅, tr)
      /\ calls tr = 0)
  /\ (exists tr,
        wrapper 3600 "fetch_stock_data" failing_fetch (at_time 10) aapl []
          (State ∅ {[pkl_name aapl_key := File (Pickle (Entry (to_dict D) 0 (Some "dataframe"))) 0]})
        = (Returns (to_dict D),
           State (<[aapl_key := Entry (to_dict D) 0 (Some "dataframe")]> ∅)
                 {[pkl_name aapl_key := File (Pickle (Entry (to_dict D) 0 (Some "dataframe"))) 0]},
           tr)
        /\ calls tr = 0)
  /\ (let '(o1, st1, tr1) :=
        wrapper 3600 "fetch_stock_data" (fetch (VFrame D)) (at_time 0) aapl [] cold in
      let '(o2, st2, tr2) :=
        wrapper 3600 "fetch_stock_data" failing_fetch (at_time 10) aapl [] st1 in
      o1 = Returns (VFrame D) /\ o2 = Returns (VFrame D)
      /\ calls tr1 = 1 /\ calls tr2 = 0 /\ calls (tr1 ++ tr2) = 1).
Proof.
  split.
  - apply (proj1 (wrapper_hits_skip_call 3600 "fetch_stock_data" failing_fetch
                    failing_fetch (at_time 10) (at_time 10) aapl []
                    (State {[aapl_key := Entry (VFrame D) 0 None]} ∅))
             (Entry (VFrame D) 0 None)).
    + apply lookup_singleton_eq.
    + vm_compute. reflexivity.
  - split.
    refine (proj1 (proj2 (wrapper_hits_skip_call 3600 "fetch_stock_data"
                           failing_fetch failing_fetch (at_time 10)
                           (at_time 10) aapl []
                           (State ∅ {[pkl_name aapl_key := File (Pickle (Entry (to_dict D) 0 (Some "dataframe"))) 0]})))
             (Entry (to_dict D) 0 (Some "dataframe")) 0%Q _ _ _ _).
    + unfold memory_miss. simpl. by rewrite lookup_empty.
    + apply lookup_singleton_eq.
    + reflexivity.
    + vm_compute. reflexivity.
    + apply (proj2 (proj2 (wrapper_hits_skip_call 3600 "fetch_stock_data"
                           (fetch (VFrame D)) failing_fetch (at_time 0)
                           (at_time 10) aapl [] cold)) (VFrame D)).
      * unfold memory_miss, cold. simpl. by rewrite lookup_empty.
      * unfold disk_miss, cold. simpl. by rewrite lookup_empty.
      * reflexivity.
      * vm_compute. reflexivity.
Defined.

(** ** Failures *)

(** C6: on a miss in both tiers, an error of the wrapped function is the
    error of the call, and neither tier is written. *)
Theorem wrapper_failure_propagates (expires : Z) (func_name : string)
  (func : list pyval -> kwargs -> outcome) (w : env)
  (args : list pyval) (kw : kwargs) (st : state) (exn : string) :
  let cache_key := get_cache_key func_name args kw in
  memory_miss expires w cache_key st ->
  disk_miss expires w cache_key st ->
  func args kw = Raises exn ->
  exists tr,
    wrapper expires func_name func w args kw st = (Raises exn, st, tr)
    /\ calls tr = 1.
Proof.
  intros cache_key Hm Hd Hr.
  destruct (wrapper_miss expires func_name func w args kw st Hm Hd)
    as (st' & tr & Hw & Hc & Hst).
  rewrite Hr in Hw, Hst. subst st'. by exists tr.
Qed.

Lemma wrapper_failure_propagates_witness :
  exists tr,
    wrapper 3600 "fetch_stock_data" failing_fetch (at_time 4000) aapl []
      (State {[aapl_key := Entry (VFrame D) 0 None]}
             {[pkl_name aapl_key := File (Pickle (Entry (to_dict D) 0 (Some "dataframe"))) 0]})
    = (Raises "StockDataError",
       State {[aapl_key := Entry (VFrame D) 0 None]}
             {[pkl_name aapl_key := File (Pickle (Entry (to_dict D) 0 (Some "dataframe"))) 0]},
       tr)
    /\ calls tr = 1.
Proof.
  apply (wrapper_failure_propagates 3600 "fetch_stock_data" failing_fetch
           (at_time 4000) aapl []).
  - unfold memory_miss. simpl. rewrite lookup_singleton_eq.
    vm_compute. discriminate.
  - unfold disk_miss. simpl. rewrite lookup_singleton_eq. right.
    vm_compute. discriminate.
  - reflexivity.
Defined.

(** In a cache directory that can be searched, what the call raises, the
    wrapped function raised; the state is then as before the call. *)
Lemma wrapper_raises_only_func (expires : Z) (func_name : string)
  (func : list pyval -> kwargs -> outcome) (w : env)
  (args : list pyval) (kw : kwargs) (st st' : state) (exn : string)
  (tr : list event) :
  wrapper expires func_name func w args kw st = (Raises exn, st', tr) ->
  func args kw = Raises exn /\ st' = st /\ calls tr = 1.
Proof.
  unfold wrapper. intros H.
  destruct (memory_hit _ _ _ _); [by inversion H|].
  destruct (disk_hit _ _ _ _) as [|evs] eqn:Hd; [by inversion H|].
  apply disk_hit_no_call in Hd.
  destruct (func args kw) as [r|x].
  - destruct (write_file _ _ _ _). by inversion H.
  - inversion H; subst. by rewrite calls_app, Hd.
Qed.

(** In a cache directory that can be searched: a file that cannot be
    read or decoded counts as a miss, the function is called and its
    result returned; the write succeeding, the file then holds the new
    entry, which for a DataFrame is the tagged mapping of [to_dict]; and
    when the write fails the result is returned all the same. *)
Lemma wrapper_cache_failures_swallowed (expires : Z) (func_name : string)
  (func : list pyval -> kwargs -> outcome) (w : env)
  (args : list pyval) (kw : kwargs) (st : state) :
  let cache_key := get_cache_key func_name args kw in
  (forall (f : file) (r : value),
      memory_miss expires w cache_key st ->
      disk st !! pkl_name cache_key = Some f ->
      readable w = false \/ file_content f = Garbage ->
      func args kw = Returns r ->
      exists st' tr,
        wrapper expires func_name func w args kw st = (Returns r, st', tr)
        /\ calls tr = 1
        /\ LogLoadFailed ∈ tr
        /\ (write w = WriteOk ->
            disk st' !! pkl_name cache_key
            = Some (File (Pickle
                            match r with
                            | VFrame df =>
                                Entry (to_dict df) (now_put w) (Some "dataframe")
                            | _ => Entry r (now_put w) None
                            end)
                         (now_mtime w))))
  /\ (forall r : value,
        memory_miss expires w cache_key st ->
        disk_miss expires w cache_key st ->
        func args kw = Returns r ->
        write w <> WriteOk ->
        exists st' tr,
          wrapper expires func_name func w args kw st = (Returns r, st', tr)
          /\ LogWriteFailed ∈ tr
          /\ memory st' !! cache_key = Some (Entry r (now_put w) None)).
Proof.
  intros cache_key. split.
  - intros f r Hm Hk Hbad Hr. unfold wrapper. fold cache_key.
    apply memory_miss_hit in Hm. rewrite Hm.
    assert (Hd : disk_hit expires w cache_key st = inr [LogLoadFailed]).
    { unfold disk_hit. rewrite Hk. destruct (readable w); [|done].
      destruct Hbad as [Hb | Hb]; [done|by rewrite Hb]. }
    rewrite Hd, Hr. unfold write_file.
    destruct (write w); eexists _, _; (split; [done|]);
      (split; [done|]); (split; [by left|]); try done.
    intros _. simpl. rewrite lookup_insert_eq. unfold file_entry. simpl.
    by destruct r.
  - intros r Hm Hd Hr Hw. unfold wrapper. fold cache_key.
    apply memory_miss_hit in Hm. apply disk_miss_hit in Hd as [evs Hd].
    rewrite Hm, Hd, Hr. unfold write_file.
    destruct (write w); [done| |]; eexists _, _; (split; [done|]);
      (split; [do 2 (apply elem_of_app; right); by left|]); simpl;
      apply lookup_insert_eq.
Qed.

(** C7 on the code, at two calls.
    (a) The cache directory cannot be searched: [cache_file.exists()] of
    line 83, which no [try] encloses, raises; the memory tier missing,
    that error is what the call raises, and the wrapped function, which
    would have returned, is not called.
    (b) The file of the key is corrupt and the wrapped function returns a
    DataFrame: the read counts as a miss, the function is called and its
    result returned, and the entry that replaces the corrupt file is the
    tagged mapping of [to_dict]; read back after the loss of the memory
    tier it gives that mapping, not the DataFrame. *)
Theorem cache_failures_on_the_code (df : DataFrame) (func_name : string)
  (func : list pyval -> kwargs -> outcome) (args : list pyval) (kw : kwargs)
  (exn : string) (d : gmap string file) :
  let cache_key := get_cache_key func_name args kw in
  cached_call (Some exn) 3600 func_name (fetch (VFrame df)) (at_time 10)
    args kw (State ∅ d)
  = (Raises exn, State ∅ d, [])
  /\ (let '(o1, st1, tr1) :=
        cached_call None 3600 func_name (fetch (VFrame df)) (at_time 10)
          args kw (State ∅ {[pkl_name cache_key := File Garbage 0]}) in
      let '(o2, st2, tr2) :=
        cached_call None 3600 func_name func (at_time 20) args kw
          (State ∅ (disk st1)) in
      o1 = Returns (VFrame df)
      /\ tr1 = [LogLoadFailed; LogCacheMiss; Called]
      /\ disk st1 !! pkl_name cache_key
         = Some (File (Pickle (Entry (to_dict df) 10 (Some "dataframe"))) 10)
      /\ tr2 = [LogFileCacheHit]
      /\ o2 = Returns (to_dict df)
      /\ o2 <> Returns (VFrame df)).
Proof.
  intros cache_key. split.
  - unfold cached_call, memory_hit. simpl. by rewrite lookup_empty.
  - unfold cached_call. unfold wrapper at 1. fold cache_key.
    unfold memory_hit, disk_hit. simpl.
    rewrite lookup_empty, lookup_singleton_eq. simpl.
    rewrite (wrapper_disk_hit 3600 func_name func (at_time 20) args kw _
               (Entry (to_dict df) 10 (Some "dataframe")) 10%Q).
    + repeat split; try done. simpl. apply lookup_insert_eq.
    + unfold memory_miss. simpl. by rewrite lookup_empty.
    + simpl. apply lookup_insert_eq.
    + reflexivity.
    + vm_compute. reflexivity.
Qed.

Example cache_failures_on_the_code_aapl :
  cached_call (Some "PermissionError") 3600 "fetch_stock_data"
    (fetch (VFrame D)) (at_time 10) aapl [] cold
  = (Raises "PermissionError", cold, [])
  /\ cached_call None 3600 "fetch_stock_data" (fetch (VFrame D)) (at_time 10)
       aapl [] cold
     = wrapper 3600 "fetch_stock_data" (fetch (VFrame D)) (at_time 10)
         aapl [] cold.
Proof.
  split; [|reflexivity].
  unfold cached_call, memory_hit, cold. simpl. by rewrite lookup_empty.
Qed.

(** ** Tables through the file tier *)

Example to_dict_D :
  to_dict D
  = VDict [(SStr "Close",
            VDict [(SStr "2024-01-02", VScalar (SFloat (371 # 2)))]);
           (SStr "Volume",
            VDict [(SStr "2024-01-02", VScalar (SInt 100))])].
Proof. reflexivity. Qed.

(** C1 on the code: a DataFrame is fetched and cached, the process is
    started again (the memory tier is empty, the file is there) and the
    same call is made within the TTL.  The call is a file cache hit and
    gives the mapping of [to_dict], not the DataFrame: the ['type'] item
    written into the file is never looked at. *)
Theorem dataframe_read_back_as_mapping (df : DataFrame) (func_name : string)
  (func : list pyval -> kwargs -> outcome) (args : list pyval) (kw : kwargs) :
  let '(o1, st1, _) :=
    wrapper 3600 func_name (fetch (VFrame df)) (at_time 0) args kw cold in
  let '(o2, st2, tr2) :=
    wrapper 3600 func_name func (at_time 10) args kw (State ∅ (disk st1)) in
  o1 = Returns (VFrame df)
  /\ disk st1 !! pkl_name (get_cache_key func_name args kw)
     = Some (File (Pickle (Entry (to_dict df) 0 (Some "dataframe"))) 0)
  /\ tr2 = [LogFileCacheHit]
  /\ o2 = Returns (to_dict df)
  /\ o2 <> Returns (VFrame df)
  /\ memory st2 !! get_cache_key func_name args kw
     = Some (Entry (to_dict df) 0 (Some "dataframe")).
Proof.
  unfold wrapper at 1. unfold memory_hit, disk_hit, cold. simpl.
  rewrite !lookup_empty. simpl.
  rewrite (wrapper_disk_hit 3600 func_name func (at_time 10) args kw _
             (Entry (to_dict df) 0 (Some "dataframe")) 0%Q).
  - repeat split; try done; simpl; apply lookup_insert_eq.
  - unfold memory_miss. simpl. by rewrite lookup_empty.
  - simpl. apply lookup_insert_eq.
  - reflexivity.
  - vm_compute. reflexivity.
Qed.

(** ** Administration *)

Lemma is_pkl_pkl_name (cache_key : string) : is_pkl (pkl_name cache_key) = true.
Proof.
  unfold pkl_name. induction cache_key as [|c k IH]; [done|].
  change (String c k +:+ ".pkl") with (String c (k +:+ ".pkl")).
  simpl. rewrite IH. apply orb_true_r.
Qed.

Lemma clear_expired_cache_memory (expires : Z) (now : Q)
  (rm_ok : string -> bool) (st : state) (k : string) (e : entry) :
  memory (clear_expired_cache expires now rm_ok st).1 !! k = Some e
  <-> memory st !! k = Some e /\ (now - timestamp e < inject_Z expires)%Q.
Proof.
  unfold clear_expired_cache. simpl. rewrite map_lookup_filter_Some. simpl.
  rewrite is_expired_not_fresh, negb_false_iff, is_fresh_lt. done.
Qed.

Lemma clear_expired_cache_disk (expires : Z) (now : Q)
  (rm_ok : string -> bool) (st : state) (name : string) (f : file) :
  disk (clear_expired_cache expires now rm_ok st).1 !! name = Some f
  <-> disk st !! name = Some f
      /\ ~ (is_pkl name = true
            /\ (inject_Z expires <= now - mtime f)%Q
            /\ rm_ok name = true).
Proof.
  unfold clear_expired_cache. simpl. rewrite map_lookup_filter_Some. simpl.
  rewrite is_expired_not_fresh, negb_true_iff, is_fresh_false. tauto.
Qed.

Lemma clear_expired_cache_count (expires : Z) (now : Q) (st : state) :
  size (memory st)
  = size (filter (fun ke : string * entry =>
                    is_expired now (timestamp ke.2) expires = false) (memory st))
    + size (filter (fun ke : string * entry =>
                      is_expired now (timestamp ke.2) expires = true) (memory st)).
Proof.
  set (P := fun ke : string * entry =>
              is_expired now (timestamp ke.2) expires = true).
  rewrite <- (map_filter_union_complement P (memory st)) at 1.
  rewrite map_size_disj_union by apply map_disjoint_filter_complement.
  rewrite Nat.add_comm. f_equal. f_equal.
  apply map_filter_ext. intros k e _. unfold P. simpl.
  by destruct (is_expired now (timestamp e) expires).
Qed.

Lemma clear_cache_disk (rm_ok : string -> bool) (st : state)
  (name : string) (f : file) :
  disk (clear_cache rm_ok st).1 !! name = Some f
  <-> disk st !! name = Some f /\ ~ (is_pkl name = true /\ rm_ok name = true).
Proof. unfold clear_cache. simpl. by rewrite map_lookup_filter_Some. Qed.

(** C8, as stated, fails on the file tier: a file is judged by its
    modification time, not by the [created_at] of the entry in it.  Here
    the entry was made at 0 and its file written at 1; the sweep at 10
    with a TTL of 10, every removal succeeding, leaves the file although
    [10 - 0 >= 10]. *)
Lemma sweep_keeps_stale_entry_file :
  ~ (forall (expires : Z) (now : Q) (rm_ok : string -> bool) (st : state)
            (name : string) (e : entry) (m : Q),
        disk st !! name = Some (File (Pickle e) m) ->
        is_pkl name = true ->
        (inject_Z expires <= now - timestamp e)%Q ->
        disk (clear_expired_cache expires now rm_ok st).1 !! name = None).
Proof.
  intros H.
  specialize (H 10%Z 10%Q (fun _ => true)
                (wrapper 10 "fetch_stock_data" (fetch (VFrame D))
                   (Env 0 0 0 1 true WriteOk) aapl [] cold).1.2
                (pkl_name aapl_key)
                (Entry (to_dict D) 0 (Some "dataframe")) 1%Q).
  assert (Hk : disk (wrapper 10 "fetch_stock_data" (fetch (VFrame D))
                       (Env 0 0 0 1 true WriteOk) aapl [] cold).1.2
               !! pkl_name aapl_key
               = Some (File (Pickle (Entry (to_dict D) 0 (Some "dataframe"))) 1)).
  { unfold wrapper, memory_hit, disk_hit, cold. simpl.
    rewrite !lookup_empty. simpl. apply lookup_insert_eq. }
  specialize (H Hk (is_pkl_pkl_name _)).
  assert (Hin : disk (clear_expired_cache 10 10 (fun _ => true)
                        (wrapper 10 "fetch_stock_data" (fetch (VFrame D))
                           (Env 0 0 0 1 true WriteOk) aapl [] cold).1.2).1
                !! pkl_name aapl_key
                = Some (File (Pickle (Entry (to_dict D) 0 (Some "dataframe"))) 1)).
  { apply clear_expired_cache_disk. split; [done|].
    intros (_ & Hold & _). vm_compute in Hold. by apply Hold. }
  rewrite H in Hin; [discriminate|]. vm_compute. discriminate.
Qed.

(** C8, amended: the sweep removes from the memory tier exactly the
    entries with [now - created_at >= expires]; from the file tier it
    removes exactly the [*.pkl] files with [now - mtime >= expires] whose
    removal succeeds; it returns nothing, and logs the number of memory
    entries removed. *)
Theorem clear_expired_cache_removes (expires : Z) (now : Q)
  (rm_ok : string -> bool) (st : state) :
  let st' := (clear_expired_cache expires now rm_ok st).1 in
  (forall (k : string) (e : entry),
      memory st' !! k = Some e
      <-> memory st !! k = Some e /\ (now - timestamp e < inject_Z expires)%Q)
  /\ (forall (name : string) (f : file),
        disk st' !! name = Some f
        <-> disk st !! name = Some f
            /\ ~ (is_pkl name = true
                  /\ (inject_Z expires <= now - mtime f)%Q
                  /\ rm_ok name = true))
  /\ (exists (evs : list event) (n : nat),
        (clear_expired_cache expires now rm_ok st).2
        = evs ++ [LogClearedExpired n]
        /\ size (memory st) = size (memory st') + n).
Proof.
  intros st'. split; [|split].
  - apply clear_expired_cache_memory.
  - apply clear_expired_cache_disk.
  - eexists _, _. split; [reflexivity|]. apply clear_expired_cache_count.
Qed.

(** C9, as stated, fails: a file that [os.remove] cannot remove stays,
    and the next call for its key, within the TTL, is a file cache hit
    that does not call the wrapped function. *)
Lemma clear_cache_keeps_unremovable_file :
  ~ (forall (rm_ok : string -> bool) (st : state) (expires : Z)
            (func_name : string) (func : list pyval -> kwargs -> outcome)
            (w : env) (args : list pyval) (kw : kwargs),
        calls (wrapper expires func_name func w args kw
                 (clear_cache rm_ok st).1).2 = 1).
Proof.
  intros H.
  specialize (H (fun _ => false)
                (State ∅ {[pkl_name aapl_key := File (Pickle (Entry (to_dict D) 0 (Some "dataframe"))) 0]})
                3600%Z "fetch_stock_data" failing_fetch (at_time 10) aapl []).
  rewrite (wrapper_disk_hit 3600 "fetch_stock_data" failing_fetch (at_time 10)
             aapl [] _ (Entry (to_dict D) 0 (Some "dataframe")) 0%Q) in H.
  - discriminate.
  - unfold memory_miss, clear_cache. simpl. by rewrite lookup_empty.
  - apply clear_cache_disk. split; [apply lookup_singleton_eq|].
    by intros [_ ?].
  - reflexivity.
  - vm_compute. reflexivity.
Qed.

(** C9, amended: the bulk clear empties the memory tier and removes
    every [*.pkl] file whose removal does not fail, whatever the age of
    the entries; when no removal fails, the next call for any key is a
    miss that calls the wrapped function. *)
Theorem clear_cache_removes (rm_ok : string -> bool) (st : state) :
  let st' := (clear_cache rm_ok st).1 in
  memory st' = ∅
  /\ (forall (name : string) (f : file),
        disk st' !! name = Some f
        <-> disk st !! name = Some f
            /\ ~ (is_pkl name = true /\ rm_ok name = true))
  /\ ((forall name : string,
          is_Some (disk st !! name) -> is_pkl name = true ->
          rm_ok name = true) ->
      forall (expires : Z) (func_name : string)
             (func : list pyval -> kwargs -> outcome) (w : env)
             (args : list pyval) (kw : kwargs),
      exists st'' tr,
        wrapper expires func_name func w args kw st'
        = (func args kw, st'', tr)
        /\ calls tr = 1).
Proof.
  intros st'. split; [done|]. split; [apply clear_cache_disk|].
  intros Hrm expires func_name func w args kw.
  destruct (wrapper_miss expires func_name func w args kw st')
    as (st'' & tr & Hw & Hc & _).
  - unfold memory_miss, st', clear_cache. simpl. by rewrite lookup_empty.
  - unfold disk_miss.
    destruct (disk st' !! pkl_name (get_cache_key func_name args kw))
      as [f|] eqn:Hk; [|done].
    apply clear_cache_disk in Hk as [Hk Hkeep]. exfalso. apply Hkeep.
    split; [apply is_pkl_pkl_name|].
    apply Hrm; [by eexists|apply is_pkl_pkl_name].
  - by exists st'', tr.
Qed.

Lemma clear_cache_removes_witness :
  exists st'' tr,
    wrapper 3600 "fetch_stock_data" (fetch (VFrame D)) (at_time 10) aapl []
      (clear_cache (fun _ => true)
         (State {[aapl_key := Entry (VFrame D) 0 None]}
                {[pkl_name aapl_key := File (Pickle (Entry (to_dict D) 0 (Some "dataframe"))) 0]})).1
    = (Returns (VFrame D), st'', tr)
    /\ calls tr = 1.
Proof.
  refine (proj2 (proj2 (clear_cache_removes (fun _ => true)
            (State {[aapl_key := Entry (VFrame D) 0 None]}
                   {[pkl_name aapl_key := File (Pickle (Entry (to_dict D) 0 (Some "dataframe"))) 0]})))
            _ 3600%Z "fetch_stock_data" (fetch (VFrame D)) (at_time 10) aapl []).
  intros name _ _. reflexivity.
Defined.

(** * Further properties of the cache *)

(** ** Shape of the keys *)

Lemma le_bytes_length (n : nat) (x : Z) : length (MD5.le_bytes n x) = n.
Proof. revert x. induction n as [|n IH]; intros x; simpl; [done|]. by rewrite IH. Qed.

Lemma le_bytes_range (n : nat) (x b : Z) :
  b ∈ MD5.le_bytes n x -> (0 <= b < 256)%Z.
Proof.
  revert x. induction n as [|n IH]; intros x; simpl; intros Hin.
  - by apply elem_of_nil in Hin.
  - apply elem_of_cons in Hin as [->|Hin]; [|by eapply IH].
    change 255%Z with (Z.ones 8). rewrite Z.land_ones by lia.
    apply Z.mod_pos_bound. lia.
Qed.

Lemma hex_digit_is_hex (d : Z) :
  (0 <= d < 16)%Z -> is_hex_char (MD5.hex_digit d) = true.
Proof.
  intros Hd.
  assert (Hc : d ∈ map Z.of_nat (seq 0 16)).
  { apply list_elem_of_fmap. exists (Z.to_nat d). split; [lia|].
    apply elem_of_seq. lia. }
  simpl in Hc. repeat (apply elem_of_cons in Hc as [->|Hc]; [reflexivity|]).
  by apply elem_of_nil in Hc.
Qed.

Lemma hex_of_bytes_length (bs : list Z) :
  String.length (MD5.hex_of_bytes bs) = 2 * length bs.
Proof. induction bs as [|b bs IH]; simpl; [done|]. rewrite IH. lia. Qed.

Lemma hex_of_bytes_is_hex (bs : list Z) :
  (forall b, b ∈ bs -> (0 <= b < 256)%Z) ->
  all_chars is_hex_char (MD5.hex_of_bytes bs) = true.
Proof.
  induction bs as [|b bs IH]; intros Hb; simpl; [done|].
  assert (Hr : (0 <= b < 256)%Z) by (apply Hb; by left).
  rewrite !hex_digit_is_hex, IH; [done| | |].
  - intros b' Hin. apply Hb. by right.
  - change 15%Z with (Z.ones 4). rewrite Z.land_ones by lia.
    apply Z.mod_pos_bound. lia.
  - rewrite Z.shiftr_div_pow2 by lia. change (2 ^ 4)%Z with 16%Z.
    split; [apply Z.div_pos; lia|apply Z.div_lt_upper_bound; lia].
Qed.

(** X1: a cache key is 32 characters long, each a digit or a letter from
    [a] to [f], whatever the name and the arguments of the call. *)
Theorem get_cache_key_format (func_name : string) (args : list pyval)
  (kw : kwargs) :
  String.length (get_cache_key func_name args kw) = 32
  /\ all_chars is_hex_char (get_cache_key func_name args kw) = true.
Proof.
  unfold get_cache_key, MD5.hexdigest, MD5.digest. split.
  - rewrite hex_of_bytes_length, !length_app, !le_bytes_length. done.
  - apply hex_of_bytes_is_hex. intros b Hin.
    repeat (apply elem_of_app in Hin as [Hin|Hin];
            [by eapply le_bytes_range|]).
    by eapply le_bytes_range.
Qed.

(** ** One file for each key *)

Lemma append_length (a b : string) :
  String.length (a +:+ b) = String.length a + String.length b.
Proof.
  induction a as [|c a IH]; [done|].
  change (String c a +:+ b) with (String c (a +:+ b)). simpl. by rewrite IH.
Qed.

Lemma append_inj_l (a a' b : string) : a +:+ b = a' +:+ b -> a = a'.
Proof.
  revert a'. induction a as [|c a IH]; intros [|c' a'] Heq.
  - done.
  - apply (f_equal String.length) in Heq.
    change (String.length b = S (String.length (a' +:+ b))) in Heq.
    rewrite append_length in Heq. lia.
  - apply (f_equal String.length) in Heq.
    change (S (String.length (a +:+ b)) = String.length b) in Heq.
    rewrite append_length in Heq. lia.
  - change (String c (a +:+ b) = String c' (a' +:+ b)) in Heq.
    inversion Heq; subst. f_equal. by apply IH.
Qed.

Lemma pkl_name_inj (k k' : string) : pkl_name k = pkl_name k' -> k = k'.
Proof. apply append_inj_l. Qed.

(** The entries and the files of the other keys are as before. *)
Lemma wrapper_frame (expires : Z) (func_name : string)
  (func : list pyval -> kwargs -> outcome) (w : env)
  (args : list pyval) (kw : kwargs) (st : state) (k : string) :
  k <> get_cache_key func_name args kw ->
  memory (wrapper expires func_name func w args kw st).1.2 !! k
  = memory st !! k
  /\ disk (wrapper expires func_name func w args kw st).1.2 !! pkl_name k
     = disk st !! pkl_name k.
Proof.
  intros Hk. unfold wrapper.
  assert (Hn : pkl_name (get_cache_key func_name args kw) <> pkl_name k).
  { intros Heq. apply Hk. symmetry. by apply pkl_name_inj. }
  destruct (memory_hit _ _ _ _); [done|].
  destruct (disk_hit _ _ _ _); simpl.
  - split; [by rewrite lookup_insert_ne|done].
  - destruct (func args kw); [|done]. unfold write_file.
    destruct (write w); simpl; rewrite ?lookup_insert_ne; done.
Qed.

(** X2: a call touches the memory entry and the file of its own key
    only: the entries and the files of every other key are as before. *)
Theorem wrapper_other_keys (expires : Z) (func_name : string)
  (func : list pyval -> kwargs -> outcome) (w : env)
  (args : list pyval) (kw : kwargs) (st : state) (k : string) :
  k <> get_cache_key func_name args kw ->
  let st' := (wrapper expires func_name func w args kw st).1.2 in
  memory st' !! k = memory st !! k
  /\ disk st' !! pkl_name k = disk st !! pkl_name k.
Proof.
  intros Hk st'. unfold st', wrapper.
  assert (Hn : pkl_name (get_cache_key func_name args kw) <> pkl_name k).
  { intros Heq. apply Hk. symmetry. by apply pkl_name_inj. }
  destruct (memory_hit _ _ _ _); [done|].
  destruct (disk_hit _ _ _ _); simpl.
  - split; [by rewrite lookup_insert_ne|done].
  - destruct (func args kw); [|done]. unfold write_file.
    destruct (write w); simpl; rewrite ?lookup_insert_ne; done.
Qed.

Lemma wrapper_other_keys_witness :
  let st := State {[aapl_key := Entry (VFrame D) 0 None]}
                  {[pkl_name aapl_key := File Garbage 0]} in
  let st' := (wrapper 3600 "fetch_stock_data" (fetch (VFrame D)) (at_time 10)
                [PStr "MSFT"; PStr "1y"] [] st).1.2 in
  memory st' !! aapl_key = memory st !! aapl_key
  /\ disk st' !! pkl_name aapl_key = disk st !! pkl_name aapl_key.
Proof.
  intros st.
  apply (wrapper_other_keys 3600 "fetch_stock_data" (fetch (VFrame D))
           (at_time 10) [PStr "MSFT"; PStr "1y"] [] st aapl_key).
  vm_compute. discriminate.
Defined.

(** ** What a call leaves in the memory tier *)

Lemma memory_hit_lookup (expires : Z) (w : env) (k : string) (st : state)
  (e : entry) :
  memory_hit expires w k st = Some e ->
  memory st !! k = Some e
  /\ (now_mem w - timestamp e < inject_Z expires)%Q.
Proof.
  unfold memory_hit. destruct (memory st !! k) as [e'|]; [|done].
  destruct (is_fresh _ _ _) eqn:Hf; [|done].
  intros [= ->]. split; [done|]. by apply is_fresh_lt.
Qed.

Lemma disk_hit_lookup (expires : Z) (w : env) (k : string) (st : state)
  (e : entry) :
  disk_hit expires w k st = inl e ->
  readable w = true
  /\ (exists m, disk st !! pkl_name k = Some (File (Pickle e) m))
  /\ (now_disk w - timestamp e < inject_Z expires)%Q.
Proof.
  unfold disk_hit. destruct (disk st !! pkl_name k) as [[c m]|]; [|done].
  destruct (readable w); [|done]. simpl.
  destruct c as [|e']; [done|].
  destruct (is_fresh _ _ _) eqn:Hf; [|done].
  intros [= ->]. split; [done|]. split; [by exists m|]. by apply is_fresh_lt.
Qed.

(** After a call that returns, the memory tier holds the result. *)
Lemma wrapper_returns_memory (expires : Z) (func_name : string)
  (func : list pyval -> kwargs -> outcome) (w : env)
  (args : list pyval) (kw : kwargs) (st st' : state) (r : value)
  (tr : list event) :
  wrapper expires func_name func w args kw st = (Returns r, st', tr) ->
  exists e,
    memory st' !! get_cache_key func_name args kw = Some e /\ result e = r.
Proof.
  unfold wrapper. intros H.
  destruct (memory_hit _ _ _ _) as [e|] eqn:Hm.
  - inversion H; subst. apply memory_hit_lookup in Hm as [Hm _]. by exists e.
  - destruct (disk_hit _ _ _ _) as [e|evs].
    + inversion H; subst. exists e. split; [apply lookup_insert_eq|done].
    + destruct (func args kw) as [r'|]; [|done].
      destruct (write_file _ _ _ _). inversion H; subst.
      eexists. split; [apply lookup_insert_eq|done].
Qed.

(** X3: whichever way a call comes to return [r] (memory hit, file hit
    or call of the wrapped function), the memory tier then holds, for the
    key of the call, an entry with the result [r]. *)
Theorem wrapper_result_in_memory (expires : Z) (func_name : string)
  (func : list pyval -> kwargs -> outcome) (w : env)
  (args : list pyval) (kw : kwargs) (st st' : state) (r : value)
  (tr : list event) :
  wrapper expires func_name func w args kw st = (Returns r, st', tr) ->
  exists e,
    memory st' !! get_cache_key func_name args kw = Some e /\ result e = r.
Proof.
  unfold wrapper. intros H.
  destruct (memory_hit _ _ _ _) as [e|] eqn:Hm.
  - inversion H; subst. apply memory_hit_lookup in Hm as [Hm _]. by exists e.
  - destruct (disk_hit _ _ _ _) as [e|evs].
    + inversion H; subst. exists e. split; [apply lookup_insert_eq|done].
    + destruct (func args kw) as [r'|]; [|done].
      destruct (write_file _ _ _ _). inversion H; subst.
      eexists. split; [apply lookup_insert_eq|done].
Qed.

Lemma wrapper_result_in_memory_witness :
  exists e,
    memory (wrapper 3600 "fetch_stock_data" (fetch (VFrame D)) (at_time 0)
              aapl [] cold).1.2
      !! get_cache_key "fetch_stock_data" aapl [] = Some e
    /\ result e = VFrame D.
Proof.
  eapply (wrapper_result_in_memory 3600 "fetch_stock_data" (fetch (VFrame D))
            (at_time 0) aapl [] cold).
  unfold wrapper, memory_hit, disk_hit, cold. simpl.
  rewrite !lookup_empty. simpl. reflexivity.
Defined.

(** ** Results through the file tier *)

Lemma file_entry_plain (r : value) (t : Q) :
  (forall df, r <> VFrame df) -> file_entry (Entry r t None) = Entry r t None.
Proof.
  intros Hr. unfold file_entry. simpl. destruct r as [s|items|df]; try done.
  by destruct (Hr df).
Qed.

(** X4: a result that is not a DataFrame survives the loss of the memory
    tier: after a miss that the wrapped function answers with [r] and
    whose file is written, a call made with an empty memory tier, the
    file readable, within [expires] of the entry, returns [r] and does
    not call the wrapped function. *)
Theorem plain_result_read_back (expires : Z) (func_name : string)
  (func func2 : list pyval -> kwargs -> outcome) (w w2 : env)
  (args : list pyval) (kw : kwargs) (st : state) (r : value) :
  let cache_key := get_cache_key func_name args kw in
  memory_miss expires w cache_key st ->
  disk_miss expires w cache_key st ->
  func args kw = Returns r ->
  (forall df, r <> VFrame df) ->
  write w = WriteOk ->
  readable w2 = true ->
  (now_disk w2 - now_put w < inject_Z expires)%Q ->
  let st1 := (wrapper expires func_name func w args kw st).1.2 in
  exists st2 tr,
    wrapper expires func_name func2 w2 args kw (State ∅ (disk st1))
    = (Returns r, st2, tr)
    /\ calls tr = 0.
Proof.
  intros cache_key Hm Hd Hr Hplain Hw Hread Hf st1.
  destruct (wrapper_miss expires func_name func w args kw st Hm Hd)
    as (st' & tr & Hwr & _ & Hst).
  unfold st1. rewrite Hwr. simpl. rewrite Hr in Hst. destruct Hst as [_ Hdisk].
  unfold write_file in Hdisk. rewrite Hw in Hdisk. simpl in Hdisk.
  rewrite (file_entry_plain r _ Hplain) in Hdisk.
  eexists _, [LogFileCacheHit]. split; [|reflexivity].
  apply (wrapper_disk_hit expires func_name func2 w2 args kw
           (State ∅ (disk st')) (Entry r (now_put w) None) (now_mtime w)).
  - unfold memory_miss. simpl. by rewrite lookup_empty.
  - simpl. rewrite Hdisk. apply lookup_insert_eq.
  - done.
  - done.
Qed.

Lemma plain_result_read_back_witness :
  let info := VDict [(SStr "longName", VScalar (SStr "Apple Inc."))] in
  let st1 := (wrapper 7200 "fetch_company_info" (fetch info) (at_time 0)
                [PStr "AAPL"] [] cold).1.2 in
  exists st2 tr,
    wrapper 7200 "fetch_company_info" failing_fetch (at_time 10)
      [PStr "AAPL"] [] (State ∅ (disk st1))
    = (Returns info, st2, tr)
    /\ calls tr = 0.
Proof.
  intros info.
  apply (plain_result_read_back 7200 "fetch_company_info" (fetch info)
           failing_fetch (at_time 0) (at_time 10) [PStr "AAPL"] [] cold info).
  - unfold memory_miss, cold. simpl. by rewrite lookup_empty.
  - unfold disk_miss, cold. simpl. by rewrite lookup_empty.
  - reflexivity.
  - discriminate.
  - reflexivity.
  - reflexivity.
  - vm_compute. reflexivity.
Defined.

(** X5: a file cache hit does not renew an entry: the entry put back
    into the memory tier keeps the time of its creation, so that a call
    made when [expires] seconds have passed since then misses both tiers
    and calls the wrapped function. *)
Theorem disk_hit_keeps_created_at (expires : Z) (func_name : string)
  (func func2 : list pyval -> kwargs -> outcome) (w w2 : env)
  (args : list pyval) (kw : kwargs) (st : state) (e : entry) (m : Q) :
  let cache_key := get_cache_key func_name args kw in
  memory_miss expires w cache_key st ->
  disk st !! pkl_name cache_key = Some (File (Pickle e) m) ->
  readable w = true ->
  (now_disk w - timestamp e < inject_Z expires)%Q ->
  (inject_Z expires <= now_mem w2 - timestamp e)%Q ->
  (inject_Z expires <= now_disk w2 - timestamp e)%Q ->
  let st1 := (wrapper expires func_name func w args kw st).1.2 in
  memory st1 !! cache_key = Some e
  /\ exists st2 tr,
       wrapper expires func_name func2 w2 args kw st1
       = (func2 args kw, st2, tr)
       /\ calls tr = 1.
Proof.
  intros cache_key Hm Hk Hr Hf Hs1 Hs2 st1. unfold st1.
  rewrite (wrapper_disk_hit expires func_name func w args kw st e m Hm Hk Hr Hf).
  simpl. fold cache_key. split; [apply lookup_insert_eq|].
  destruct (wrapper_miss expires func_name func2 w2 args kw
              (State (<[cache_key := e]> (memory st)) (disk st)))
    as (st2 & tr & Hw & Hc & _).
  - unfold memory_miss. simpl. fold cache_key. by rewrite lookup_insert_eq.
  - unfold disk_miss. simpl. fold cache_key. rewrite Hk. by right.
  - by exists st2, tr.
Qed.

Lemma disk_hit_keeps_created_at_witness :
  let e := Entry (to_dict D) 0 (Some "dataframe") in
  let st := State ∅ {[pkl_name aapl_key := File (Pickle e) 0]} in
  let st1 := (wrapper 3600 "fetch_stock_data" failing_fetch (at_time 3599)
                aapl [] st).1.2 in
  memory st1 !! aapl_key = Some e
  /\ exists st2 tr,
       wrapper 3600 "fetch_stock_data" (fetch (VFrame D)) (at_time 3600)
         aapl [] st1
       = (Returns (VFrame D), st2, tr)
       /\ calls tr = 1.
Proof.
  intros e st.
  refine (disk_hit_keeps_created_at 3600 "fetch_stock_data" failing_fetch
            (fetch (VFrame D)) (at_time 3599) (at_time 3600) aapl [] st e 0%Q
            _ _ _ _ _ _).
  - unfold memory_miss, st. simpl. by rewrite lookup_empty.
  - apply lookup_singleton_eq.
  - reflexivity.
  - vm_compute. reflexivity.
  - vm_compute. discriminate.
  - vm_compute. discriminate.
Defined.

(** ** An invariant of the file tier *)

Lemma disk_ok_cold : disk_ok cold.
Proof.
  intros name f Hk. unfold cold in Hk. simpl in Hk.
  by rewrite lookup_empty in Hk.
Qed.

Lemma disk_ok_wrapper (expires : Z) (func_name : string)
  (func : list pyval -> kwargs -> outcome) (w : env)
  (args : list pyval) (kw : kwargs) (st : state) :
  disk_ok st -> (now_put w <= now_mtime w)%Q ->
  disk_ok (wrapper expires func_name func w args kw st).1.2.
Proof.
  intros Hok Hclock. unfold wrapper.
  destruct (memory_hit _ _ _ _); [done|].
  destruct (disk_hit _ _ _ _); [done|].
  destruct (func args kw) as [r|]; [|done]. unfold write_file.
  destruct (write w); simpl; [|done|]; intros name f Hk; simpl in Hk.
  - apply lookup_insert_Some in Hk as [[_ <-]|[_ Hk]]; [|by eapply Hok].
    unfold file_ok, file_entry. simpl.
    destruct r as [s|items|df]; simpl; split; done.
  - apply lookup_insert_Some in Hk as [[_ <-]|[_ Hk]]; [|by eapply Hok].
    done.
Qed.

(** X6: the files stay as [wrapper] writes them: as long as the clock
    does not run backwards between line 104 and the write, every decodable
    file holds an entry no younger than the file and no DataFrame object.
    The invariant holds of the empty cache and is kept by a call, by the
    bulk clear and by the sweep. *)
Theorem disk_ok_preserved :
  disk_ok cold
  /\ (forall (expires : Z) (func_name : string)
             (func : list pyval -> kwargs -> outcome) (w : env)
             (args : list pyval) (kw : kwargs) (st : state),
         disk_ok st -> (now_put w <= now_mtime w)%Q ->
         disk_ok (wrapper expires func_name func w args kw st).1.2)
  /\ (forall (rm_ok : string -> bool) (st : state),
         disk_ok st -> disk_ok (clear_cache rm_ok st).1)
  /\ (forall (expires : Z) (now : Q) (rm_ok : string -> bool) (st : state),
         disk_ok st -> disk_ok (clear_expired_cache expires now rm_ok st).1).
Proof.
  split; [|split; [|split]].
  - apply disk_ok_cold.
  - apply disk_ok_wrapper.
  - intros rm_ok st Hok name f Hk. apply clear_cache_disk in Hk as [Hk _].
    by eapply Hok.
  - intros expires now rm_ok st Hok name f Hk.
    apply clear_expired_cache_disk in Hk as [Hk _]. by eapply Hok.
Qed.

Lemma disk_ok_preserved_witness :
  disk_ok (wrapper 3600 "fetch_stock_data" (fetch (VFrame D))
             (Env 0 0 0 1 true WriteOk) aapl [] cold).1.2.
Proof.
  destruct disk_ok_preserved as (Hcold & Hcall & _).
  apply Hcall; [exact Hcold|]. vm_compute. discriminate.
Defined.

(** ** The sweep and the calls that follow it *)

(** What a call gives and whether it calls the wrapped function, read
    off the two lookups. *)
Lemma wrapper_outcome (expires : Z) (func_name : string)
  (func : list pyval -> kwargs -> outcome) (w : env)
  (args : list pyval) (kw : kwargs) (st : state) :
  let cache_key := get_cache_key func_name args kw in
  (wrapper expires func_name func w args kw st).1.1
  = match memory_hit expires w cache_key st with
    | Some e => Returns (result e)
    | None =>
        match disk_hit expires w cache_key st with
        | inl e => Returns (result e)
        | inr _ => func args kw
        end
    end
  /\ calls (wrapper expires func_name func w args kw st).2
     = match memory_hit expires w cache_key st with
       | Some _ => 0
       | None =>
           match disk_hit expires w cache_key st with
           | inl _ => 0
           | inr _ => 1
           end
       end.
Proof.
  intros cache_key. unfold wrapper. fold cache_key.
  destruct (memory_hit _ _ _ _); [done|].
  destruct (disk_hit _ _ _ _) as [|evs] eqn:Hd; [done|].
  apply disk_hit_no_call in Hd.
  destruct (func args kw) as [r|].
  - pose proof (write_file_no_call w cache_key (Entry r (now_put w) None) (disk st)) as Hw.
    destruct (write_file _ _ _ _) as [d wevs]. simpl in Hw.
    split; [done|]. cbn [snd]. by rewrite !calls_app, Hd, Hw.
  - split; [done|]. cbn [snd]. by rewrite calls_app, Hd.
Qed.

Lemma sweep_memory_hit (expires : Z) (now : Q) (rm_ok : string -> bool)
  (w : env) (k : string) (st : state) :
  (now <= now_mem w)%Q ->
  memory_hit expires w k (clear_expired_cache expires now rm_ok st).1
  = memory_hit expires w k st.
Proof.
  intros Hnow. unfold memory_hit.
  destruct (memory (clear_expired_cache expires now rm_ok st).1 !! k)
    as [e|] eqn:Hs.
  - apply clear_expired_cache_memory in Hs as [-> _]. done.
  - destruct (memory st !! k) as [e|] eqn:Hk; [|done].
    destruct (is_fresh (now_mem w) (timestamp e) expires) eqn:Hf; [|done].
    apply is_fresh_lt in Hf.
    assert (Hin : memory (clear_expired_cache expires now rm_ok st).1 !! k
                  = Some e).
    { apply clear_expired_cache_memory. split; [done|]. lra. }
    congruence.
Qed.

Lemma sweep_disk_hit (expires : Z) (now : Q) (rm_ok : string -> bool)
  (w : env) (k : string) (st : state) :
  disk_ok st -> (now <= now_disk w)%Q ->
  disk_hit expires w k (clear_expired_cache expires now rm_ok st).1
  = disk_hit expires w k st
  \/ (exists evs evs',
         disk_hit expires w k (clear_expired_cache expires now rm_ok st).1
         = inr evs
         /\ disk_hit expires w k st = inr evs').
Proof.
  intros Hok Hnow. unfold disk_hit.
  destruct (disk (clear_expired_cache expires now rm_ok st).1 !! pkl_name k)
    as [f|] eqn:Hs.
  - apply clear_expired_cache_disk in Hs as [-> _]. by left.
  - destruct (disk st !! pkl_name k) as [f|] eqn:Hk; [|by left].
    right. exists [].
    destruct (readable w); [|by eexists].
    pose proof (Hok _ _ Hk) as Hf. unfold file_ok in Hf.
    destruct (file_content f) as [|e]; [by eexists|].
    destruct Hf as [Hts _].
    destruct (is_fresh (now_disk w) (timestamp e) expires) eqn:Hfr;
      [|by eexists].
    exfalso. apply is_fresh_lt in Hfr.
    assert (Hin : disk (clear_expired_cache expires now rm_ok st).1
                  !! pkl_name k = Some f).
    { apply clear_expired_cache_disk. split; [done|].
      intros (_ & Hold & _). lra. }
    congruence.
Qed.

(** X7: the sweep does not change what later calls with the same TTL
    give: on a cache whose files are as [wrapper] writes them, a call made
    after the sweep returns or raises the same, and calls the wrapped
    function as often, as it would without the sweep. *)
Theorem sweep_keeps_outcome (expires : Z) (now : Q) (rm_ok : string -> bool)
  (func_name : string) (func : list pyval -> kwargs -> outcome) (w : env)
  (args : list pyval) (kw : kwargs) (st : state) :
  disk_ok st ->
  (now <= now_mem w)%Q ->
  (now <= now_disk w)%Q ->
  let swept := (clear_expired_cache expires now rm_ok st).1 in
  (wrapper expires func_name func w args kw swept).1.1
  = (wrapper expires func_name func w args kw st).1.1
  /\ calls (wrapper expires func_name func w args kw swept).2
     = calls (wrapper expires func_name func w args kw st).2.
Proof.
  intros Hok Hm Hd swept.
  destruct (wrapper_outcome expires func_name func w args kw swept) as [-> ->].
  destruct (wrapper_outcome expires func_name func w args kw st) as [-> ->].
  unfold swept. rewrite (sweep_memory_hit _ _ _ _ _ _ Hm).
  destruct (memory_hit _ _ _ _); [done|].
  destruct (sweep_disk_hit expires now rm_ok w
              (get_cache_key func_name args kw) st Hok Hd)
    as [->|(evs & evs' & -> & ->)]; done.
Qed.

Lemma sweep_keeps_outcome_witness :
  let st := (wrapper 3600 "fetch_stock_data" (fetch (VFrame D))
               (Env 0 0 0 1 true WriteOk) aapl [] cold).1.2 in
  let swept := (clear_expired_cache 3600 3600 (fun _ => true) st).1 in
  (wrapper 3600 "fetch_stock_data" failing_fetch (at_time 3600) aapl [] swept).1.1
  = (wrapper 3600 "fetch_stock_data" failing_fetch (at_time 3600) aapl [] st).1.1
  /\ calls (wrapper 3600 "fetch_stock_data" failing_fetch (at_time 3600) aapl [] swept).2
     = calls (wrapper 3600 "fetch_stock_data" failing_fetch (at_time 3600) aapl [] st).2.
Proof.
  intros st.
  apply (sweep_keeps_outcome 3600 3600 (fun _ => true) "fetch_stock_data"
           failing_fetch (at_time 3600) aapl [] st).
  - apply disk_ok_wrapper; [apply disk_ok_cold|]. vm_compute. discriminate.
  - vm_compute. discriminate.
  - vm_compute. discriminate.
Defined.

(** X8: sweeping again at the same time with the same TTL changes
    nothing more: the state is that after the first sweep, and the count
    logged is 0. *)
Theorem sweep_twice (expires : Z) (now : Q) (rm_ok : string -> bool)
  (st : state) :
  let once := clear_expired_cache expires now rm_ok st in
  let twice := clear_expired_cache expires now rm_ok once.1 in
  twice.1 = once.1
  /\ exists evs, twice.2 = evs ++ [LogClearedExpired 0].
Proof.
  intros once twice. split.
  - unfold twice, once, clear_expired_cache. simpl. f_equal.
    + apply map_filter_id. intros k e Hk.
      by apply map_lookup_filter_Some in Hk as [_ Hk].
    + apply map_filter_id. intros name f Hk.
      by apply map_lookup_filter_Some in Hk as [_ Hk].
  - unfold twice, clear_expired_cache at 1. simpl. eexists. f_equal.
    f_equal. f_equal. apply map_size_empty_iff, map_empty. intros k.
    apply map_lookup_filter_None_2.
    right. intros e Hk. apply map_lookup_filter_Some in Hk as [_ Hk].
    simpl in *. by rewrite Hk.
Qed.

(** ** Spellings of one call *)

Lemma join_snoc_length (p x : string) (l : list string) :
  String.length (join "_" (p :: l ++ [x]))
  = String.length (join "_" (p :: l)) + 1 + String.length x.
Proof.
  revert p. induction l as [|q l IH]; intros p.
  - change (String.length (p +:+ "_" +:+ x)
            = String.length p + 1 + String.length x).
    rewrite !append_length. simpl. lia.
  - change (String.length (p +:+ "_" +:+ join "_" (q :: l ++ [x]))
            = String.length (p +:+ "_" +:+ join "_" (q :: l)) + 1
              + String.length x).
    rewrite !append_length, IH. lia.
Qed.

(** X9: the decorator sees the arguments as they are written: the same
    call with its last argument given by position, given by keyword, or
    left to the default of the wrapped function is hashed from three
    different strings. *)
Theorem key_str_spellings (func_name : string) (args : list pyval)
  (k : string) (v : pyval) :
  key_str func_name (args ++ [v]) [] <> key_str func_name args [(k, v)]
  /\ key_str func_name args [] <> key_str func_name (args ++ [v]) []
  /\ key_str func_name args [] <> key_str func_name args [(k, v)].
Proof.
  assert (H0 : key_parts func_name args [] = func_name :: map py_str args).
  { unfold key_parts. simpl. by rewrite app_nil_r. }
  assert (H1 : key_parts func_name (args ++ [v]) []
               = func_name :: map py_str args ++ [py_str v]).
  { unfold key_parts. rewrite map_app. simpl. by rewrite app_nil_r. }
  assert (H2 : key_parts func_name args [(k, v)]
               = func_name :: map py_str args ++ [k +:+ "=" +:+ py_str v]).
  { unfold key_parts, kw_part. simpl. by rewrite String.eqb_refl. }
  unfold key_str. rewrite H0, H1, H2.
  split; [|split]; intros Heq; apply (f_equal String.length) in Heq;
    rewrite !join_snoc_length, ?append_length in Heq; simpl in Heq; lia.
Qed.

Example key_str_spellings_example :
  key_str "fetch_stock_data" [PStr "AAPL"] [] = "fetch_stock_data_AAPL"
  /\ key_str "fetch_stock_data" [PStr "AAPL"; PStr "1y"] []
     = "fetch_stock_data_AAPL_1y"
  /\ key_str "fetch_stock_data" [PStr "AAPL"] [("period", PStr "1y")]
     = "fetch_stock_data_AAPL_period=1y".
Proof. repeat split. Qed.

(** * Symbols *)

Example validate_stock_symbol_examples :
  validate_stock_symbol "AAPL" = (true, EmptyString)
  /\ validate_stock_symbol " brk.b " = (true, EmptyString)
  /\ validate_stock_symbol "AA PL"
     = (false, "Stock symbol must contain only letters, numbers, and dots")
  /\ validate_stock_symbol "ABCDEFGHIJK"
     = (false, "Stock symbol too long (max 10 characters)")
  /\ validate_stock_symbol "Ticker"
     = (false, "Please enter a valid stock symbol").
Proof. repeat split. Qed.

(** ** Stripping *)

Lemma lstrip_spaces (s : string) :
  all_chars isspace s = true -> lstrip s = EmptyString.
Proof.
  induction s as [|c s IH]; simpl; [done|]. intros H.
  apply andb_true_iff in H as [Hc Hs]. rewrite Hc. by apply IH.
Qed.

Lemma rstrip_spaces (s : string) :
  all_chars isspace s = true -> rstrip s = EmptyString.
Proof.
  induction s as [|c s IH]; simpl; [done|]. intros H.
  apply andb_true_iff in H as [Hc Hs]. by rewrite (IH Hs), Hc.
Qed.

Lemma lstrip_app_spaces (l x : string) :
  all_chars isspace l = true -> lstrip (l +:+ x) = lstrip x.
Proof.
  induction l as [|c l IH]; [done|]. simpl. intros H.
  apply andb_true_iff in H as [Hc Hl].
  change (String c l +:+ x) with (String c (l +:+ x)). simpl.
  rewrite Hc. by apply IH.
Qed.

Lemma rstrip_app_spaces (x r : string) :
  all_chars isspace r = true -> rstrip (x +:+ r) = rstrip x.
Proof.
  intros Hr. induction x as [|c x IH].
  - change (EmptyString +:+ r) with r. by apply rstrip_spaces.
  - change (String c x +:+ r) with (String c (x +:+ r)). simpl. by rewrite IH.
Qed.

Lemma strip_app_spaces_r (s r : string) :
  all_chars isspace r = true -> strip (s +:+ r) = strip s.
Proof.
  intros Hr. unfold strip. induction s as [|c s IH].
  - change (EmptyString +:+ r) with r. by rewrite (lstrip_spaces r Hr).
  - change (String c s +:+ r) with (String c (s +:+ r)). simpl.
    destruct (isspace c); [done|].
    change (String c (s +:+ r)) with (String c s +:+ r).
    by apply rstrip_app_spaces.
Qed.

Lemma strip_surrounded (l s r : string) :
  all_chars isspace l = true -> all_chars isspace r = true ->
  strip (l +:+ s +:+ r) = strip s.
Proof.
  intros Hl Hr. unfold strip. rewrite (lstrip_app_spaces l _ Hl).
  by apply strip_app_spaces_r.
Qed.

(** The tests made after the first one, on the stripped symbol. *)
Lemma validate_stock_symbol_nonempty (c : Ascii.ascii) (s : string) :
  validate_stock_symbol (String c s)
  = let symbol := strip (String c s) in
    if negb (all_chars allowed symbol)
    then (false, "Stock symbol must contain only letters, numbers, and dots")
    else if 10 <? String.length symbol
    then (false, "Stock symbol too long (max 10 characters)")
    else if bool_decide (lower symbol ∈ reserved)
    then (false, "Please enter a valid stock symbol")
    else (true, EmptyString).
Proof. reflexivity. Qed.

(** X10: a symbol that is not empty and made of white space only is
    accepted: the emptiness test comes before the stripping. *)
Theorem validate_stock_symbol_blank (symbol : string) :
  symbol <> EmptyString ->
  all_chars isspace symbol = true ->
  validate_stock_symbol symbol = (true, EmptyString).
Proof.
  intros Hne Hsp. destruct symbol as [|c s]; [done|].
  rewrite validate_stock_symbol_nonempty. unfold strip.
  by rewrite (lstrip_spaces _ Hsp).
Qed.

Lemma validate_stock_symbol_blank_witness :
  validate_stock_symbol "   " = (true, EmptyString).
Proof. apply validate_stock_symbol_blank; [discriminate|reflexivity]. Defined.

(** X11: white space around a symbol that is not empty does not count:
    the symbol is judged as without it. *)
Theorem validate_stock_symbol_surrounded (l symbol r : string) :
  symbol <> EmptyString ->
  is_ascii symbol = true ->
  all_chars isspace l = true ->
  all_chars isspace r = true ->
  validate_stock_symbol (l +:+ symbol +:+ r) = validate_stock_symbol symbol.
Proof.
  intros Hne _ Hl Hr. destruct symbol as [|c s]; [done|].
  assert (Hs : exists c' s', l +:+ String c s +:+ r = String c' s').
  { destruct l as [|c' l']; [by eexists _, _|]. by eexists _, _. }
  destruct Hs as (c' & s' & Hs).
  rewrite Hs, !validate_stock_symbol_nonempty, <- Hs.
  by rewrite strip_surrounded.
Qed.

Lemma validate_stock_symbol_surrounded_witness :
  validate_stock_symbol (" " +:+ "AAPL" +:+ "  ")
  = validate_stock_symbol "AAPL".
Proof.
  apply validate_stock_symbol_surrounded;
    [discriminate|reflexivity|reflexivity|reflexivity].
Defined.

(** ** Letter case *)

Lemma isspace_lower_char (c : Ascii.ascii) : isspace (lower_char c) = isspace c.
Proof. by destruct c as [[] [] [] [] [] [] [] []]. Qed.

Lemma allowed_lower_char (c : Ascii.ascii) : allowed (lower_char c) = allowed c.
Proof. by destruct c as [[] [] [] [] [] [] [] []]. Qed.

Lemma lower_lstrip (s : string) : lower (lstrip s) = lstrip (lower s).
Proof.
  induction s as [|c s IH]; simpl; [done|]. rewrite isspace_lower_char.
  by destruct (isspace c).
Qed.

Lemma lower_rstrip (s : string) : lower (rstrip s) = rstrip (lower s).
Proof.
  induction s as [|c s IH]; simpl; [done|]. rewrite <- IH.
  destruct (rstrip s) as [|c' s']; simpl; [|done].
  rewrite isspace_lower_char. by destruct (isspace c).
Qed.

Lemma lower_strip (s : string) : lower (strip s) = strip (lower s).
Proof. unfold strip. by rewrite lower_rstrip, lower_lstrip. Qed.

Lemma all_allowed_lower (s : string) :
  all_chars allowed (lower s) = all_chars allowed s.
Proof.
  induction s as [|c s IH]; simpl; [done|]. by rewrite allowed_lower_char, IH.
Qed.

Lemma length_lower (s : string) : String.length (lower s) = String.length s.
Proof. induction s as [|c s IH]; simpl; [done|]. by rewrite IH. Qed.

(** X12: the case of the letters does not count: two symbols with the
    same lower-case form are judged alike. *)
Theorem validate_stock_symbol_case (symbol symbol' : string) :
  is_ascii symbol = true -> is_ascii symbol' = true ->
  lower symbol = lower symbol' ->
  validate_stock_symbol symbol = validate_stock_symbol symbol'.
Proof.
  intros _ _ Hl.
  destruct symbol as [|c s], symbol' as [|c' s']; try done.
  rewrite !validate_stock_symbol_nonempty. cbv zeta.
  assert (Hs : lower (strip (String c s)) = lower (strip (String c' s'))).
  { by rewrite !lower_strip, Hl. }
  rewrite <- (all_allowed_lower (strip (String c s))).
  rewrite <- (all_allowed_lower (strip (String c' s'))).
  rewrite <- (length_lower (strip (String c s))).
  rewrite <- (length_lower (strip (String c' s'))).
  by rewrite Hs.
Qed.

Lemma validate_stock_symbol_case_witness :
  validate_stock_symbol "Brk.B" = validate_stock_symbol "BRK.b".
Proof.
  apply validate_stock_symbol_case; reflexivity.
Defined.

(** ** Accepted symbols and the separator of the key *)

Lemma all_chars_lstrip (P : Ascii.ascii -> bool) (s : string) :
  (forall c, isspace c = true -> P c = true) ->
  all_chars P (lstrip s) = true -> all_chars P s = true.
Proof.
  intros HP. induction s as [|c s IH]; simpl; [done|].
  destruct (isspace c) eqn:Hc; [|done].
  intros H. by rewrite (HP c Hc), IH.
Qed.

Lemma all_chars_rstrip (s : string) :
  all_chars allowed (rstrip s) = true ->
  all_chars (fun c => isspace c || allowed c) s = true.
Proof.
  induction s as [|c s IH]; simpl; [done|].
  destruct (rstrip s) as [|c' s'].
  - destruct (isspace c) eqn:Hc; simpl.
    + intros _. by apply IH.
    + rewrite andb_true_r. intros ->. by apply IH.
  - intros H. apply andb_true_iff in H as [-> H]. rewrite orb_true_r.
    by apply IH.
Qed.

Lemma space_or_allowed_sep_free (s : string) :
  all_chars (fun c => isspace c || allowed c) s = true -> sep_free s = true.
Proof.
  induction s as [|c s IH]; simpl; [done|]. intros H.
  apply andb_true_iff in H as [Hc Hs]. rewrite (IH Hs), andb_true_r.
  destruct (Ascii.eqb_spec c "_"%char) as [->|]; [discriminate|done].
Qed.

(** An accepted symbol holds no underscore. *)
Lemma validate_stock_symbol_sep_free (symbol : string) :
  (validate_stock_symbol symbol).1 = true -> sep_free symbol = true.
Proof.
  destruct symbol as [|c s]; [done|].
  rewrite validate_stock_symbol_nonempty. cbv zeta.
  destruct (all_chars allowed (strip (String c s))) eqn:Ha; [|done].
  intros _. apply space_or_allowed_sep_free.
  apply all_chars_lstrip with (P := fun c => isspace c || allowed c) (s := String c s).
  - by intros c0 ->.
  - by apply all_chars_rstrip.
Qed.

(** X13: for accepted symbols the string that is hashed for the call
    [func(symbol, period)] tells the symbol and the period: an accepted
    symbol holds no underscore, so that the separator is not mistaken. *)
Theorem validated_symbol_key_str (func_name symbol symbol' period period' : string) :
  (validate_stock_symbol symbol).1 = true ->
  (validate_stock_symbol symbol').1 = true ->
  is_ascii symbol = true -> is_ascii symbol' = true ->
  key_str func_name [PStr symbol; PStr period] []
  = key_str func_name [PStr symbol'; PStr period'] [] ->
  symbol = symbol' /\ period = period'.
Proof.
  intros Hv Hv' _ _ Heq.
  apply validate_stock_symbol_sep_free in Hv, Hv'.
  change (func_name +:+ "_" +:+ symbol +:+ "_" +:+ period
          = func_name +:+ "_" +:+ symbol' +:+ "_" +:+ period') in Heq.
  apply append_inj_r in Heq.
  change (String "_"%char (symbol +:+ "_" +:+ period)
          = String "_"%char (symbol' +:+ "_" +:+ period')) in Heq.
  inversion Heq as [Heq'].
  destruct (sep_free_prefix symbol symbol' ("_" +:+ period) ("_" +:+ period')
              Hv Hv') as [-> Hp]; [right; by eexists..|done|].
  split; [done|]. by inversion Hp.
Qed.

Lemma validated_symbol_key_str_witness :
  "AAPL" = "AAPL" /\ "1y" = "1y".
Proof.
  apply (validated_symbol_key_str "fetch_stock_data" "AAPL" "AAPL" "1y" "1y");
    reflexivity.
Defined.

(** * The summary *)

Lemma memory_miss_ext (expires : Z) (w : env) (k : string) (st st' : state) :
  memory st' !! k = memory st !! k ->
  memory_miss expires w k st -> memory_miss expires w k st'.
Proof. unfold memory_miss. by intros ->. Qed.

Lemma disk_miss_ext (expires : Z) (w : env) (k : string) (st st' : state) :
  disk st' !! pkl_name k = disk st !! pkl_name k ->
  disk_miss expires w k st -> disk_miss expires w k st'.
Proof. unfold disk_miss. by intros ->. Qed.

(** The summary of three fetches that return. *)
Lemma get_stock_summary_fetched (y : yahoo) (w1 w2 w3 : env)
  (now_str stock_symbol period : string) (st st1 st2 st3 : state)
  (r1 r2 r3 : value) (tr1 tr2 tr3 : list event) :
  (validate_stock_symbol stock_symbol).1 = true ->
  wrapper 3600 "fetch_stock_data"
    (fun _ _ => get_stock_data y stock_symbol period) w1
    [PStr stock_symbol; PStr period] [] st = (Returns r1, st1, tr1) ->
  wrapper 7200 "fetch_company_info"
    (fun _ _ => get_company_info y stock_symbol) w2
    [PStr stock_symbol] [] st1 = (Returns r2, st2, tr2) ->
  wrapper 86400 "fetch_financials"
    (fun _ _ => get_financials y stock_symbol) w3
    [PStr stock_symbol] [] st2 = (Returns r3, st3, tr3) ->
  get_stock_summary y w1 w2 w3 now_str stock_symbol period st
  = (compile_summary stock_symbol period r1 r2 r3 now_str, st3,
     tr1 ++ tr2 ++ tr3).
Proof.
  intros Hv H1 H2 H3. unfold get_stock_summary.
  destruct (validate_stock_symbol stock_symbol) as [[] msg]; [|done].
  by rewrite H1, H2, H3.
Qed.

(** X14: when the second fetch of a summary fails, the summary fails
    with the same error and the third fetch is not made, but the first
    result stays in the memory tier: asking again does not fetch the
    stock data again. *)
Theorem get_stock_summary_keeps_progress (y : yahoo) (w1 w2 w3 : env)
  (now_str stock_symbol period : string) (st st1 : state) (r1 : value)
  (tr1 : list event) (exn : string) :
  let k1 := get_cache_key "fetch_stock_data"
              [PStr stock_symbol; PStr period] [] in
  let k2 := get_cache_key "fetch_company_info" [PStr stock_symbol] [] in
  (validate_stock_symbol stock_symbol).1 = true ->
  wrapper 3600 "fetch_stock_data"
    (fun _ _ => get_stock_data y stock_symbol period) w1
    [PStr stock_symbol; PStr period] [] st = (Returns r1, st1, tr1) ->
  memory_miss 7200 w2 k2 st1 ->
  disk_miss 7200 w2 k2 st1 ->
  get_company_info y stock_symbol = Raises exn ->
  exists tr2,
    get_stock_summary y w1 w2 w3 now_str stock_symbol period st
    = (SummaryRaises exn, st1, tr1 ++ tr2)
    /\ calls tr2 = 1
    /\ exists e, memory st1 !! k1 = Some e /\ result e = r1.
Proof.
  intros k1 k2 Hv H1 Hm Hd Hr.
  destruct (wrapper_miss 7200 "fetch_company_info"
              (fun _ _ => get_company_info y stock_symbol) w2
              [PStr stock_symbol] [] st1 Hm Hd) as (st2 & tr2 & H2 & Hc & Hst).
  cbv beta in H2, Hst. rewrite Hr in H2, Hst. subst st2.
  exists tr2. split; [|split; [done|]].
  - unfold get_stock_summary.
    destruct (validate_stock_symbol stock_symbol) as [[] msg]; [|done].
    by rewrite H1, Hr, H2.
  - by apply wrapper_returns_memory in H1.
Qed.

Lemma get_stock_summary_keeps_progress_witness :
  let y := Yahoo (fun _ _ => Returns (VFrame D))
                 (fun _ => Raises "Failed to fetch company information: timeout")
                 (fun _ => Returns (VDict [])) in
  let st1 := (wrapper 3600 "fetch_stock_data" (fetch (VFrame D)) (at_time 0)
                aapl [] cold).1.2 in
  exists tr2,
    get_stock_summary y (at_time 0) (at_time 1) (at_time 2)
      "2024-01-02 10:00:00" "AAPL" "1y" cold
    = (SummaryRaises "Failed to fetch company information: timeout", st1,
       [LogCacheMiss; Called] ++ tr2)
    /\ calls tr2 = 1
    /\ exists e, memory st1 !! aapl_key = Some e /\ result e = VFrame D.
Proof.
  intros y st1.
  refine (get_stock_summary_keeps_progress y (at_time 0) (at_time 1)
            (at_time 2) "2024-01-02 10:00:00" "AAPL" "1y" cold st1 (VFrame D)
            [LogCacheMiss; Called] _ _ _ _ _ _).
  - reflexivity.
  - unfold wrapper, memory_hit, disk_hit, cold. simpl.
    rewrite !lookup_empty. reflexivity.
  - unfold memory_miss, st1, wrapper, memory_hit, disk_hit, cold. simpl.
    rewrite !lookup_empty. simpl. rewrite lookup_insert_ne; [by rewrite lookup_empty|].
    vm_compute. discriminate.
  - unfold disk_miss, st1, wrapper, memory_hit, disk_hit, cold. simpl.
    rewrite !lookup_empty. simpl. rewrite lookup_insert_ne; [by rewrite lookup_empty|].
    vm_compute. discriminate.
  - reflexivity.
Defined.

(** A miss that the wrapped function answers, its state spelt out. *)
Lemma wrapper_miss_returns (expires : Z) (func_name : string)
  (func : list pyval -> kwargs -> outcome) (w : env)
  (args : list pyval) (kw : kwargs) (st : state) (r : value) :
  let cache_key := get_cache_key func_name args kw in
  memory_miss expires w cache_key st ->
  disk_miss expires w cache_key st ->
  func args kw = Returns r ->
  exists st' tr,
    wrapper expires func_name func w args kw st = (Returns r, st', tr)
    /\ calls tr = 1
    /\ memory st' !! cache_key = Some (Entry r (now_put w) None).
Proof.
  intros cache_key Hm Hd Hr.
  destruct (wrapper_miss expires func_name func w args kw st Hm Hd)
    as (st' & tr & Hw & Hc & Hst).
  rewrite Hr in Hw, Hst. destruct Hst as [Hmem _].
  exists st', tr. split; [done|]. split; [done|].
  fold cache_key in Hmem. rewrite Hmem. apply lookup_insert_eq.
Qed.

(** X15: a summary built from three misses that Yahoo answers leaves
    the three results in the memory tier; when the keys of the three
    calls differ, the same summary asked again, each call within the TTL
    of its entry, is built from the memory tier alone: the results are
    the same, Yahoo is not asked and the state does not change. *)
Theorem get_stock_summary_again (y y' : yahoo) (w1 w2 w3 v1 v2 v3 : env)
  (now_str now_str' stock_symbol period : string) (st : state)
  (r1 r2 r3 : value) :
  let k1 := get_cache_key "fetch_stock_data"
              [PStr stock_symbol; PStr period] [] in
  let k2 := get_cache_key "fetch_company_info" [PStr stock_symbol] [] in
  let k3 := get_cache_key "fetch_financials" [PStr stock_symbol] [] in
  (validate_stock_symbol stock_symbol).1 = true ->
  k1 <> k2 -> k1 <> k3 -> k2 <> k3 ->
  memory_miss 3600 w1 k1 st -> disk_miss 3600 w1 k1 st ->
  memory_miss 7200 w2 k2 st -> disk_miss 7200 w2 k2 st ->
  memory_miss 86400 w3 k3 st -> disk_miss 86400 w3 k3 st ->
  get_stock_data y stock_symbol period = Returns r1 ->
  get_company_info y stock_symbol = Returns r2 ->
  get_financials y stock_symbol = Returns r3 ->
  (now_mem v1 - now_put w1 < inject_Z 3600)%Q ->
  (now_mem v2 - now_put w2 < inject_Z 7200)%Q ->
  (now_mem v3 - now_put w3 < inject_Z 86400)%Q ->
  let '(o, st3, tr) :=
    get_stock_summary y w1 w2 w3 now_str stock_symbol period st in
  let '(o', st', tr') :=
    get_stock_summary y' v1 v2 v3 now_str' stock_symbol period st3 in
  o = compile_summary stock_symbol period r1 r2 r3 now_str
  /\ calls tr = 3
  /\ o' = compile_summary stock_symbol period r1 r2 r3 now_str'
  /\ calls tr' = 0
  /\ st' = st3.
Proof.
  intros k1 k2 k3 Hv H12 H13 H23 Hm1 Hd1 Hm2 Hd2 Hm3 Hd3 Hr1 Hr2 Hr3
    Hf1 Hf2 Hf3.
  (* the first summary: three misses *)
  destruct (wrapper_miss_returns 3600 "fetch_stock_data"
              (fun _ _ => get_stock_data y stock_symbol period) w1
              [PStr stock_symbol; PStr period] [] st r1 Hm1 Hd1 Hr1)
    as (st1 & tr1 & E1 & C1 & M1).
  pose proof (wrapper_frame 3600 "fetch_stock_data"
                (fun _ _ => get_stock_data y stock_symbol period) w1
                [PStr stock_symbol; PStr period] [] st k2
                (not_eq_sym H12)) as F12.
  pose proof (wrapper_frame 3600 "fetch_stock_data"
                (fun _ _ => get_stock_data y stock_symbol period) w1
                [PStr stock_symbol; PStr period] [] st k3
                (not_eq_sym H13)) as F13.
  rewrite E1 in F12, F13. cbn [fst snd] in F12, F13.
  destruct F12 as [F12m F12d]. destruct F13 as [F13m F13d].
  destruct (wrapper_miss_returns 7200 "fetch_company_info"
              (fun _ _ => get_company_info y stock_symbol) w2
              [PStr stock_symbol] [] st1 r2
              (memory_miss_ext 7200 w2 k2 st st1 F12m Hm2)
              (disk_miss_ext 7200 w2 k2 st st1 F12d Hd2) Hr2)
    as (st2 & tr2 & E2 & C2 & M2).
  pose proof (wrapper_frame 7200 "fetch_company_info"
                (fun _ _ => get_company_info y stock_symbol) w2
                [PStr stock_symbol] [] st1 k1 H12) as F21.
  pose proof (wrapper_frame 7200 "fetch_company_info"
                (fun _ _ => get_company_info y stock_symbol) w2
                [PStr stock_symbol] [] st1 k3 (not_eq_sym H23)) as F23.
  rewrite E2 in F21, F23. cbn [fst snd] in F21, F23.
  destruct F21 as [F21m _]. destruct F23 as [F23m F23d].
  assert (Hm3' : memory_miss 86400 w3 k3 st2).
  { apply (memory_miss_ext 86400 w3 k3 st st2); [|exact Hm3].
    rewrite F23m. exact F13m. }
  assert (Hd3' : disk_miss 86400 w3 k3 st2).
  { apply (disk_miss_ext 86400 w3 k3 st st2); [|exact Hd3].
    rewrite F23d. exact F13d. }
  destruct (wrapper_miss_returns 86400 "fetch_financials"
              (fun _ _ => get_financials y stock_symbol) w3
              [PStr stock_symbol] [] st2 r3 Hm3' Hd3' Hr3)
    as (st3 & tr3 & E3 & C3 & M3).
  pose proof (wrapper_frame 86400 "fetch_financials"
                (fun _ _ => get_financials y stock_symbol) w3
                [PStr stock_symbol] [] st2 k1 H13) as F31.
  pose proof (wrapper_frame 86400 "fetch_financials"
                (fun _ _ => get_financials y stock_symbol) w3
                [PStr stock_symbol] [] st2 k2 H23) as F32.
  rewrite E3 in F31, F32. cbn [fst snd] in F31, F32.
  destruct F31 as [F31m _]. destruct F32 as [F32m _].
  rewrite (get_stock_summary_fetched y w1 w2 w3 now_str stock_symbol period
             st st1 st2 st3 r1 r2 r3 tr1 tr2 tr3 Hv E1 E2 E3).
  (* the second summary: three memory hits *)
  assert (G1 : memory st3 !! k1 = Some (Entry r1 (now_put w1) None)).
  { rewrite F31m, F21m. exact M1. }
  assert (G2 : memory st3 !! k2 = Some (Entry r2 (now_put w2) None)).
  { rewrite F32m. exact M2. }
  rewrite (get_stock_summary_fetched y' v1 v2 v3 now_str' stock_symbol period
             st3 st3 st3 st3 r1 r2 r3 [LogCacheHit] [LogCacheHit]
             [LogCacheHit] Hv
             (wrapper_memory_hit 3600 "fetch_stock_data" _ v1 _ _ st3
                (Entry r1 (now_put w1) None) G1 Hf1)
             (wrapper_memory_hit 7200 "fetch_company_info" _ v2 _ _ st3
                (Entry r2 (now_put w2) None) G2 Hf2)
             (wrapper_memory_hit 86400 "fetch_financials" _ v3 _ _ st3
                (Entry r3 (now_put w3) None) M3 Hf3)).
  rewrite !calls_app, C1, C2, C3.
  repeat split; reflexivity.
Qed.

Lemma get_stock_summary_again_witness :
  let info := VDict [(SStr "longName", VScalar (SStr "Apple Inc."))] in
  let y := Yahoo (fun _ _ => Returns (VFrame D)) (fun _ => Returns info)
                 (fun _ => Returns (VDict [])) in
  let y' := Yahoo (fun _ _ => Raises "offline") (fun _ => Raises "offline")
                  (fun _ => Raises "offline") in
  let '(o, st3, tr) :=
    get_stock_summary y (at_time 0) (at_time 1) (at_time 2)
      "2024-01-02 10:00:00" "AAPL" "1y" cold in
  let '(o', st', tr') :=
    get_stock_summary y' (at_time 10) (at_time 11) (at_time 12)
      "2024-01-02 10:00:10" "AAPL" "1y" st3 in
  o = compile_summary "AAPL" "1y" (VFrame D) info (VDict [])
        "2024-01-02 10:00:00"
  /\ calls tr = 3
  /\ o' = compile_summary "AAPL" "1y" (VFrame D) info (VDict [])
         "2024-01-02 10:00:10"
  /\ calls tr' = 0
  /\ st' = st3.
Proof.
  intros info y y'.
  refine (get_stock_summary_again y y' (at_time 0) (at_time 1) (at_time 2)
            (at_time 10) (at_time 11) (at_time 12) "2024-01-02 10:00:00"
            "2024-01-02 10:00:10" "AAPL" "1y" cold (VFrame D) info (VDict [])
            _ _ _ _ _ _ _ _ _ _ _ _ _ _ _ _).
  - reflexivity.
  - vm_compute. discriminate.
  - vm_compute. discriminate.
  - vm_compute. discriminate.
  - unfold memory_miss, cold. simpl. by rewrite lookup_empty.
  - unfold disk_miss, cold. simpl. by rewrite lookup_empty.
  - unfold memory_miss, cold. simpl. by rewrite lookup_empty.
  - unfold disk_miss, cold. simpl. by rewrite lookup_empty.
  - unfold memory_miss, cold. simpl. by rewrite lookup_empty.
  - unfold disk_miss, cold. simpl. by rewrite lookup_empty.
  - reflexivity.
  - reflexivity.
  - reflexivity.
  - vm_compute. reflexivity.
  - vm_compute. reflexivity.
  - vm_compute. reflexivity.
Defined.
